(** * Page objects and browser utilities of Python_Pytest

    A shallow embedding of
      - [Python_Pytest/utils/browserUtils.py]  (class [BrowserUtils])
      - [Python_Pytest/PageObject/login.py]    (class [LoginPage])

    The browser session (selenium's driver and its web elements) is external
    to the repository.  It is embedded as an oracle that answers every call
    from the history of the calls made before it; each call is recorded, the
    way a recording stub driver would.  Python objects live in a store keyed
    by their identity, their attributes in a dictionary per object.

    Strings are [String.string], that is sequences of 8-bit characters;
    [title] has Python's behaviour on ASCII text and leaves every other
    character alone. *)

From Stdlib Require Import Ascii String.
From stdpp Require Import gmap strings list fin_maps.

Local Open Scope string_scope.
Local Open Scope list_scope.

(** ** Python exceptions *)

Module Exc.

(** The part of Python's exception class tree the code can tell apart.
    [Derived name base] is any further class, declared with [base] as its
    parent: selenium's exceptions all descend from [Exception]. *)
Inductive exc_class : Type :=
| BaseException
| Exception
| KeyboardInterrupt
| SystemExit
| GeneratorExit
| Derived (name : string) (base : exc_class).

(** [issubclass(c, Exception)] *)
Fixpoint is_Exception (c : exc_class) : bool :=
  match c with
  | BaseException => false
  | Exception => true
  | KeyboardInterrupt => false
  | SystemExit => false
  | GeneratorExit => false
  | Derived _ base => is_Exception base
  end.

(** A raised exception object: its class and its message. *)
Record exc : Type := mkExc { exc_type : exc_class; exc_msg : string }.

(** [isinstance(e, Exception)], the test of an [except Exception:] clause *)
Definition isinstance_Exception (e : exc) : bool := is_Exception (exc_type e).

Definition AttributeError : exc_class := Derived "AttributeError" Exception.
Definition TypeError : exc_class := Derived "TypeError" Exception.
Definition WebDriverException : exc_class := Derived "WebDriverException" Exception.
Definition NoSuchElementException : exc_class :=
  Derived "NoSuchElementException" WebDriverException.
Definition StaleElementReferenceException : exc_class :=
  Derived "StaleElementReferenceException" WebDriverException.

End Exc.
Export Exc.

(** ** The two [str] methods the code calls *)

Module Str.

Definition is_upper (c : ascii) : bool :=
  let n := nat_of_ascii c in (65 <=? n)%nat && (n <=? 90)%nat.

Definition is_lower (c : ascii) : bool :=
  let n := nat_of_ascii c in (97 <=? n)%nat && (n <=? 122)%nat.

(** cased characters: the letters *)
Definition is_cased (c : ascii) : bool := is_upper c || is_lower c.

Definition to_upper (c : ascii) : ascii :=
  if is_lower c then ascii_of_nat (nat_of_ascii c - 32) else c.

Definition to_lower (c : ascii) : ascii :=
  if is_upper c then ascii_of_nat (nat_of_ascii c + 32) else c.

(** [s.replace(old, new)] for one-character [old] and [new]: every
    occurrence is replaced. *)
Fixpoint replace (old new : ascii) (s : string) : string :=
  match s with
  | EmptyString => EmptyString
  | String c s' =>
      String (if Ascii.eqb c old then new else c) (replace old new s')
  end.

(** [s.title()]: a character that follows a cased character is lowercased,
    any other character is uppercased (titlecased). *)
Fixpoint title_from (previous_is_cased : bool) (s : string) : string :=
  match s with
  | EmptyString => EmptyString
  | String c s' =>
      String (if previous_is_cased then to_lower c else to_upper c)
             (title_from (is_cased c) s')
  end.

Definition title (s : string) : string := title_from false s.

End Str.

(** ** Python values and outcomes *)

Definition Driver : Type := nat.
Definition Element : Type := nat.
Definition ref : Type := nat.

Inductive val : Type :=
| VNone
| VStr (s : string)
| VTuple2 (a b : string)
| VDriver (d : Driver)
| VElement (e : Element)
| VRef (r : ref).

Inductive Result (A : Type) : Type :=
| Ok (a : A)
| Raise (e : exc).
Arguments Ok {A} a.
Arguments Raise {A} e.

(** selenium's [By.ID] *)
Definition By_ID : string := "id".

(** ** The world: object store, browser session, standard output *)

(** A call into the browser session, as a recording stub would note it. *)
Inductive Call : Type :=
| FindElement (d : Driver) (by_ value : string)
| SendKeys (e : Element) (keys : val)
| Click (e : Element)
| ValueOfCssProperty (e : Element) (prop : string)
| Title (d : Driver).

(** A Python object: its class name and its attribute dictionary. *)
Record obj : Type := mkObj { obj_class : string; obj_attrs : gmap string val }.

Record World : Type := mkWorld {
  heap : gmap ref obj;
  (** the browser session: what a call answers after the calls before it *)
  browser : list Call -> Call -> Result val;
  (** the calls made so far, oldest first *)
  calls : list Call;
  (** the [print] calls made so far, oldest first: the two arguments of each *)
  stdout : list (val * val)
}.

(** the text [print(label, value)] writes *)
Definition str (v : val) : string :=
  match v with
  | VNone => "None"
  | VStr s => s
  | VTuple2 a b => "('" ++ a ++ "', '" ++ b ++ "')"
  | VDriver _ => "<WebDriver>"
  | VElement _ => "<WebElement>"
  | VRef _ => "<object>"
  end.

Definition newline : string := String "010" EmptyString.

Definition print_line (entry : val * val) : string :=
  str (fst entry) ++ " " ++ str (snd entry) ++ newline.

(** ** Computations: state and exceptions *)

Definition M (A : Type) : Type := World -> World * Result A.

Definition ret {A} (a : A) : M A := fun w => (w, Ok a).

Definition raise {A} (e : exc) : M A := fun w => (w, Raise e).

Definition bind {A B} (m : M A) (k : A -> M B) : M B :=
  fun w =>
    match m w with
    | (w', Ok a) => k a w'
    | (w', Raise e) => (w', Raise e)
    end.

Notation "x <- m ;; k" := (bind m (fun x => k))
  (at level 100, m at next level, right associativity).
Notation "m ;;; k" := (bind m (fun _ => k))
  (at level 100, right associativity).

(** [try: body / except Exception: handler] *)
Definition try_except_Exception {A} (body handler : M A) : M A :=
  fun w =>
    match body w with
    | (w', Ok a) => (w', Ok a)
    | (w', Raise e) =>
        if isinstance_Exception e then handler w' else (w', Raise e)
    end.

(** [for x in xs: body(x)] *)
Fixpoint for_in {A} (xs : list A) (body : A -> M unit) : M unit :=
  match xs with
  | [] => ret tt
  | x :: xs' => body x ;;; for_in xs' body
  end.

(** ** Primitive operations *)

Definition attribute_error (name : string) : exc :=
  mkExc AttributeError ("object has no attribute '" ++ name ++ "'").

Definition type_error (msg : string) : exc := mkExc TypeError msg.

(** [target.name] on an object of the store *)
Definition getattr (target : val) (name : string) : M val :=
  fun w =>
    match target with
    | VRef r =>
        match heap w !! r with
        | Some o =>
            match obj_attrs o !! name with
            | Some v => (w, Ok v)
            | None => (w, Raise (attribute_error name))
            end
        | None => (w, Raise (attribute_error name))
        end
    | _ => (w, Raise (attribute_error name))
    end.

(** [target.name = v] *)
Definition setattr (target : val) (name : string) (v : val) : M unit :=
  fun w =>
    match target with
    | VRef r =>
        match heap w !! r with
        | Some o =>
            (mkWorld (<[r := mkObj (obj_class o) (<[name := v]> (obj_attrs o))]> (heap w))
                     (browser w) (calls w) (stdout w),
             Ok tt)
        | None => (w, Raise (attribute_error name))
        end
    | _ => (w, Raise (attribute_error name))
    end.

(** a new object of class [cls], with no attribute yet *)
Definition new_object (cls : string) : M val :=
  fun w =>
    let r := fresh (dom (heap w)) in
    (mkWorld (<[r := mkObj cls ∅]> (heap w)) (browser w) (calls w) (stdout w),
     Ok (VRef r)).

(** a call into the browser session: recorded, then answered *)
Definition call (c : Call) : M val :=
  fun w =>
    (mkWorld (heap w) (browser w) (calls w ++ [c]) (stdout w),
     browser w (calls w) c).

(** [print(label, value)] *)
Definition print (label value : val) : M unit :=
  fun w =>
    (mkWorld (heap w) (browser w) (calls w) (stdout w ++ [(label, value)]),
     Ok tt).

(** *** The methods of selenium's driver and elements *)

(** [target.find_element] applied to an unpacked locator: the method is
    looked up on the target first, then the locator is evaluated and
    unpacked. *)
Definition find_element (target : val) (args : M val) : M val :=
  match target with
  | VDriver d =>
      a <- args ;;
      match a with
      | VTuple2 by_ value => call (FindElement d by_ value)
      | _ => raise (type_error "find_element() argument after * must be an iterable")
      end
  | _ => raise (attribute_error "find_element")
  end.

(** [target.send_keys(keys)] *)
Definition send_keys (target : val) (keys : val) : M val :=
  match target with
  | VElement e => call (SendKeys e keys)
  | _ => raise (attribute_error "send_keys")
  end.

(** [target.click()] *)
Definition click (target : val) : M val :=
  match target with
  | VElement e => call (Click e)
  | _ => raise (attribute_error "click")
  end.

(** [target.value_of_css_property(prop)] *)
Definition value_of_css_property (target : val) (prop : string) : M val :=
  match target with
  | VElement e => call (ValueOfCssProperty e prop)
  | _ => raise (attribute_error "value_of_css_property")
  end.

(** [target.title] *)
Definition title_property (target : val) : M val :=
  match target with
  | VDriver d => call (Title d)
  | _ => raise (attribute_error "title")
  end.

(** *** Dictionaries *)

(** truth value of a dictionary: it is not empty *)
Definition dict_truthy (d : gmap string string) : bool := negb (bool_decide (d = ∅)).

(** [k in d] *)
Definition dict_contains (d : gmap string string) (k : string) : bool :=
  bool_decide (is_Some (d !! k)).

(** [d.get(k)] *)
Definition dict_get (d : gmap string string) (k : string) : val :=
  match d !! k with
  | Some v => VStr v
  | None => VNone
  end.

(** ** browserUtils.py *)

Module BrowserUtils.

Definition __init__ (self driver : val) : M val :=
  setattr self "driver" driver ;;;
  ret VNone.

Definition getPageTitle (self : val) : M val :=
  driver <- getattr self "driver" ;;
  title_property driver.

Definition default_properties : list string :=
  ["background-color"; "color"; "font-size"].

(** the label of one property, line 23 *)
Definition label_of (label_map : option (gmap string string)) (prop : string) : val :=
  match label_map with
  | Some d =>
      if dict_truthy d && dict_contains d prop
      then dict_get d prop
      else VStr (Str.title (Str.replace "-" " " prop))
  | None => VStr (Str.title (Str.replace "-" " " prop))
  end.

(** the body of the loop, lines 23 to 28 *)
Definition print_css_property (element : val)
    (label_map : option (gmap string string)) (prop : string) : M unit :=
  let label := label_of label_map prop in
  value <- try_except_Exception (value_of_css_property element prop) (ret VNone) ;;
  print label value.

Definition print_css_properties (self element : val)
    (properties : option (list string))
    (label_map : option (gmap string string)) : M val :=
  let properties :=
    match properties with
    | None => default_properties
    | Some ps => ps
    end in
  for_in properties (print_css_property element label_map) ;;;
  ret VNone.

End BrowserUtils.

(** ** shop.py *)

Module ShopPage.

(** Modelled from the spec: the class [ShopPage] of
    [Python_Pytest/PageObject/shop.py], which [login.py] imports.  A shop
    page is a page object bound to the driver handle it is constructed
    with: its initialiser stores the handle and touches nothing else. *)
Definition __init__ (self driver : val) : M val :=
  BrowserUtils.__init__ self driver.

(** [ShopPage(driver)] *)
Definition new (driver : val) : M val :=
  self <- new_object "ShopPage" ;;
  __init__ self driver ;;;
  ret self.

End ShopPage.

(** ** login.py *)

Module LoginPage.

Definition __init__ (self driver : val) : M val :=
  BrowserUtils.__init__ self driver ;;;
  setattr self "driver" driver ;;;
  setattr self "username" (VTuple2 By_ID "username") ;;;
  setattr self "password" (VTuple2 By_ID "password") ;;;
  setattr self "submit" (VTuple2 By_ID "signInBtn") ;;;
  ret VNone.

(** [LoginPage(driver)] *)
Definition new (driver : val) : M val :=
  self <- new_object "LoginPage" ;;
  __init__ self driver ;;;
  ret self.

Definition login (self : val) (username password : val) : M val :=
  (driver <- getattr self "driver" ;;
   element <- find_element driver (getattr self "username") ;;
   send_keys element username) ;;;
  (driver <- getattr self "driver" ;;
   element <- find_element driver (getattr self "password") ;;
   send_keys element password) ;;;
  (driver <- getattr self "driver" ;;
   element <- find_element driver (getattr self "submit") ;;
   click element) ;;;
  driver <- getattr self "driver" ;;
  shop_page <- ShopPage.new driver ;;
  ret shop_page.

(** inherited from [BrowserUtils] *)
Definition getPageTitle : val -> M val := BrowserUtils.getPageTitle.
Definition print_css_properties := BrowserUtils.print_css_properties.

End LoginPage.

(** ** A stub browser session, for the examples *)

Module Stub.

Definition no_such_element : exc :=
  mkExc NoSuchElementException "no such element".

Definition interrupted : exc := mkExc KeyboardInterrupt EmptyString.

(** A login form with three fields, elements 1, 2 and 3; an element whose
    colour and font size are known, whose background colour cannot be
    read, and whose [outline] is never answered: the session is
    interrupted there. *)
Definition session (history : list Call) (c : Call) : Result val :=
  match c with
  | FindElement _ by_ value =>
      if String.eqb by_ "id" && String.eqb value "username" then Ok (VElement 1)
      else if String.eqb by_ "id" && String.eqb value "password" then Ok (VElement 2)
      else if String.eqb by_ "id" && String.eqb value "signInBtn" then Ok (VElement 3)
      else Raise no_such_element
  | SendKeys _ _ => Ok VNone
  | Click _ => Ok VNone
  | ValueOfCssProperty _ prop =>
      if String.eqb prop "color" then Ok (VStr "rgba(0, 0, 0, 1)")
      else if String.eqb prop "font-size" then Ok (VStr "16px")
      else if String.eqb prop "outline" then Raise interrupted
      else Raise no_such_element
  | Title _ => Ok (VStr "ProtoCommerce")
  end.

Definition world : World := mkWorld ∅ session [] [].

(** the world after [page = LoginPage(driver)], and [page] *)
Definition driver : val := VDriver 7.
Definition opened : World * Result val := LoginPage.new driver world.

(** the same session, except that the submit control has gone stale when
    it is clicked *)
Definition stale_element : exc :=
  mkExc StaleElementReferenceException "stale element reference".

Definition stale_session (history : list Call) (c : Call) : Result val :=
  match c with
  | Click _ => Raise stale_element
  | _ => session history c
  end.

Definition stale_opened : World * Result val :=
  LoginPage.new driver (mkWorld ∅ stale_session [] []).

(** the world after [page = LoginPage(None)] *)
Definition unbound : World * Result val := LoginPage.new VNone world.

End Stub.

(** ** Vocabulary of the specification *)

(** The label the specification describes: the mapped label when a map is
    given and has the property, the transformed property name otherwise. *)
Definition spec_label (label_map : option (gmap string string)) (prop : string) : val :=
  match label_map with
  | Some d =>
      match d !! prop with
      | Some l => VStr l
      | None => VStr (Str.title (Str.replace "-" " " prop))
      end
  | None => VStr (Str.title (Str.replace "-" " " prop))
  end.

(** the list [print_css_properties] iterates over *)
Definition properties_used (properties : option (list string)) : list string :=
  default BrowserUtils.default_properties properties.

(** the browser calls that retrieving the properties [ps] makes *)
Definition retrieval_calls (element : val) (ps : list string) : list Call :=
  match element with
  | VElement e => ValueOfCssProperty e <$> ps
  | _ => []
  end.

(** What retrieving the [i]-th property of [ps] answers, when the loop
    started in [w] gets there: the properties before it have been asked. *)
Definition retrieval (w : World) (element : val) (ps : list string) (i : nat)
    : option (Result val) :=
  match ps !! i with
  | Some prop =>
      Some (snd (value_of_css_property element prop
                   (mkWorld (heap w) (browser w)
                            (calls w ++ retrieval_calls element (take i ps))
                            (stdout w))))
  | None => None
  end.

(** the value printed for a retrieval that returned or was caught *)
Definition printed_value (r : option (Result val)) : val :=
  match r with
  | Some (Ok v) => v
  | _ => VNone
  end.

(** the entries a complete run over [ps] prints *)
Definition entries (w : World) (element : val)
    (label_map : option (gmap string string)) (ps : list string) : list (val * val) :=
  imap (fun i prop => (BrowserUtils.label_of label_map prop,
                       printed_value (retrieval w element ps i))) ps.

(** every exception the retrievals of [ps] raise is an [Exception] *)
Definition only_Exceptions (w : World) (element : val) (ps : list string) : Prop :=
  forall i x, retrieval w element ps i = Some (Raise x) -> isinstance_Exception x = true.

(** The run prints one entry per property, in the order of the list, and
    returns [None]. *)
Definition one_entry_per_property (w : World) (self element : val)
    (properties : option (list string))
    (label_map : option (gmap string string)) : Prop :=
  let res := BrowserUtils.print_css_properties self element properties label_map w in
  let ps := properties_used properties in
  snd res = Ok VNone /\
  exists es,
    stdout (fst res) = stdout w ++ es /\
    length es = length ps /\
    es.*1 = spec_label label_map <$> ps.

(** No retrieval that raises stops the run: the run returns [None], all the
    properties get their entry, and the entry of a property whose retrieval
    raised has the value [None]. *)
Definition swallows_failures (w : World) (self element : val)
    (properties : option (list string))
    (label_map : option (gmap string string)) : Prop :=
  let res := BrowserUtils.print_css_properties self element properties label_map w in
  let ps := properties_used properties in
  snd res = Ok VNone /\
  length (stdout (fst res)) = length (stdout w) + length ps /\
  forall i prop x,
    ps !! i = Some prop ->
    retrieval w element ps i = Some (Raise x) ->
    stdout (fst res) !! (length (stdout w) + i)
    = Some (spec_label label_map prop, VNone).

(** [self] is a login page of the store, bound to [driver], with the three
    locators of [LoginPage.__init__]. *)
Definition is_login_page (w : World) (self : ref) (driver : val) : Prop :=
  exists o,
    heap w !! self = Some o /\
    obj_class o = "LoginPage" /\
    obj_attrs o !! "driver" = Some driver /\
    obj_attrs o !! "username" = Some (VTuple2 By_ID "username") /\
    obj_attrs o !! "password" = Some (VTuple2 By_ID "password") /\
    obj_attrs o !! "submit" = Some (VTuple2 By_ID "signInBtn").

(** The calls of a login, each with what the session answers: the three
    elements found are [e1], [e2] and [e3]. *)
Definition login_script (d : Driver) (username password : val)
    (e1 e2 e3 : Element) (r1 r2 r3 : val) : list (Call * val) :=
  [ (FindElement d By_ID "username", VElement e1);
    (SendKeys e1 username, r1);
    (FindElement d By_ID "password", VElement e2);
    (SendKeys e2 password, r2);
    (FindElement d By_ID "signInBtn", VElement e3);
    (Click e3, r3) ].

(** the session answers the calls of [script], made in a row after
    [history], as the script says *)
Fixpoint answered (session : list Call -> Call -> Result val)
    (history : list Call) (script : list (Call * val)) : Prop :=
  match script with
  | [] => True
  | (c, v) :: rest =>
      session history c = Ok v /\ answered session (history ++ [c]) rest
  end.

(** every object of [w] is still there in [w'], with the same attributes *)
Definition keeps_objects (w w' : World) : Prop :=
  forall r o, heap w !! r = Some o -> heap w' !! r = Some o.

(** a computation that changes no object that exists when it starts *)
Definition stable {A} (m : M A) : Prop :=
  forall w, keeps_objects w (fst (m w)).

(** a word: one or more letters *)
Definition is_word (s : string) : bool :=
  match s with
  | EmptyString => false
  | String _ _ => forallb Str.is_cased (list_ascii_of_string s)
  end.

(** a word with its first letter in upper case and the others in lower case *)
Definition capitalize (s : string) : string :=
  match s with
  | EmptyString => EmptyString
  | String c s' =>
      String (Str.to_upper c)
             (string_of_list_ascii (map Str.to_lower (list_ascii_of_string s')))
  end.

(** [sep.join(ws)] *)
Fixpoint join (sep : string) (ws : list string) : string :=
  match ws with
  | [] => EmptyString
  | [w] => w
  | w :: ws' => w ++ sep ++ join sep ws'
  end.

(** the label a map gives a property, if it gives one *)
Definition label_lookup (label_map : option (gmap string string)) (prop : string)
    : option string :=
  match label_map with
  | Some d => d !! prop
  | None => None
  end.

(** the label derived from the name of a property, line 23 *)
Definition derived_label (prop : string) : string :=
  Str.title (Str.replace "-" " " prop).

(** a string of ASCII characters, on which [title] is Python's *)
Definition is_ascii (s : string) : bool :=
  forallb (fun c => (nat_of_ascii c <? 128)%nat) (list_ascii_of_string s).

(** [s.lower()], on ASCII *)
Definition lower (s : string) : string :=
  string_of_list_ascii (map Str.to_lower (list_ascii_of_string s)).

(** the calls of a login that finds the elements [e1], [e2] and [e3] *)
Definition login_calls (d : Driver) (username password : val)
    (e1 e2 e3 : Element) : list Call :=
  [ FindElement d By_ID "username"; SendKeys e1 username;
    FindElement d By_ID "password"; SendKeys e2 password;
    FindElement d By_ID "signInBtn"; Click e3 ].

(** a value that has neither [find_element] nor [title]: [None], a tuple *)
Definition lacks_driver_methods (v : val) : bool :=
  match v with
  | VNone | VTuple2 _ _ => true
  | _ => false
  end.

(** the character [title] puts for [c] *)
Definition title_char (previous_is_cased : bool) (c : ascii) : ascii :=
  if previous_is_cased then Str.to_lower c else Str.to_upper c.

(** the character [replace] puts for [c], a hyphen being replaced by a space *)
Definition hyphen_to_space (c : ascii) : ascii :=
  if Ascii.eqb c "-" then " "%char else c.

(** the object has no [driver] attribute, or one without [title] *)
Definition driver_unusable (o : obj) : bool :=
  match obj_attrs o !! "driver" with
  | Some v => lacks_driver_methods v
  | None => true
  end.

(** *** The derived label in the words of the specification *)

(** the words of a name: what stands between its hyphens *)
Fixpoint split_hyphens (s : string) : list string :=
  match s with
  | EmptyString => [EmptyString]
  | String c s' =>
      if Ascii.eqb c "-" then EmptyString :: split_hyphens s'
      else match split_hyphens s' with
           | w :: ws => String c w :: ws
           | [] => [String c EmptyString]
           end
  end.

(** The character at position [i] of [l] starts a run of letters: no letter
    stands before it.  [before] tells whether a letter stands before the
    whole of [l]. *)
Definition starts_run (before : bool) (l : list ascii) (i : nat) : bool :=
  match i with
  | 0 => negb before
  | S j =>
      match l !! j with
      | Some p => negb (Str.is_cased p)
      | None => true
      end
  end.

(** A word in title case: each letter that starts a run of letters in upper
    case, every other letter in lower case, the other characters as they
    are. *)
Definition title_case (w : string) : string :=
  let l := list_ascii_of_string w in
  string_of_list_ascii
    (imap (fun i c => if starts_run false l i then Str.to_upper c else Str.to_lower c) l).

(** the name with every hyphen replaced by a space and each word in title
    case *)
Definition words_label (prop : string) : string :=
  join " " (title_case <$> split_hyphens prop).

(** The label of a property as it is claimed: the mapped label if a map is
    given and has the property, the words of the name in title case
    otherwise. *)
Definition claimed_label (label_map : option (gmap string string)) (prop : string) : val :=
  match label_map with
  | Some d =>
      match d !! prop with
      | Some l => VStr l
      | None => VStr (words_label prop)
      end
  | None => VStr (words_label prop)
  end.

(** ** Facts about the string methods *)

Example title_font_size :
  Str.title (Str.replace "-" " " "font-size") = "Font Size".
Proof. reflexivity. Qed.

Example title_background_color :
  Str.title (Str.replace "-" " " "background-color") = "Background Color".
Proof. reflexivity. Qed.

(** a letter after a digit or an apostrophe starts a word, as in Python *)
Example title_after_non_letter :
  Str.title "grid-row2x they're" = "Grid-Row2X They'Re".
Proof. reflexivity. Qed.

Section StringFacts.

Import Str.

Lemma replace_app old new a b :
  replace old new (a ++ b) = (replace old new a ++ replace old new b)%string.
Proof. induction a as [|c a IH]; simpl; [reflexivity | now rewrite IH]. Qed.

(** a hyphen is not a letter, so a run of letters has none to replace *)
Lemma replace_letters w :
  forallb is_cased (list_ascii_of_string w) = true ->
  replace "-" " " w = w.
Proof.
  induction w as [|c w IH]; simpl; [reflexivity |].
  intros [Hc Hw]%andb_prop. rewrite (IH Hw).
  destruct (Ascii.eqb_spec c "-") as [->|_]; [discriminate Hc | reflexivity].
Qed.

Lemma title_from_true_letters w :
  forallb is_cased (list_ascii_of_string w) = true ->
  title_from true w
  = string_of_list_ascii (map to_lower (list_ascii_of_string w)).
Proof.
  induction w as [|c w IH]; simpl; [reflexivity |].
  intros [Hc Hw]%andb_prop. now rewrite Hc, (IH Hw).
Qed.

Lemma title_word w : is_word w = true -> title w = capitalize w.
Proof.
  destruct w as [|c w]; [discriminate |].
  unfold is_word, title. simpl.
  intros [Hc Hw]%andb_prop. now rewrite Hc, (title_from_true_letters _ Hw).
Qed.

(** after a run of letters the next character follows a cased one *)
Lemma title_from_letters_app b w rest :
  forallb is_cased (list_ascii_of_string w) = true ->
  title_from b (w ++ rest)
  = (title_from b w
     ++ title_from (match w with EmptyString => b | String _ _ => true end) rest)%string.
Proof.
  revert b. induction w as [|c w IH]; intros b; simpl; [reflexivity |].
  intros [Hc Hw]%andb_prop. rewrite Hc, (IH true Hw).
  now destruct w.
Qed.

(** A property name made of words joined by hyphens becomes the same
    words, capitalized and joined by spaces. *)
Lemma title_replace_words (ws : list string) :
  Forall (fun w => is_word w = true) ws ->
  title (replace "-" " " (join "-" ws)) = join " " (capitalize <$> ws).
Proof.
  induction 1 as [|w ws Hw Hws IH]; [reflexivity |].
  destruct ws as [|w2 ws].
  - simpl. rewrite replace_letters; [now apply title_word |].
    destruct w; [discriminate | exact Hw].
  - change (join "-" (w :: w2 :: ws))
      with (w ++ String "-" (join "-" (w2 :: ws)))%string.
    change (join " " (capitalize <$> w :: w2 :: ws))
      with (capitalize w ++ String " " (join " " (capitalize <$> w2 :: ws)))%string.
    rewrite replace_app, replace_letters
      by (destruct w; [discriminate | exact Hw]).
    unfold title in IH |- *.
    rewrite title_from_letters_app by (destruct w; [discriminate | exact Hw]).
    change (title_from false w) with (title w). rewrite title_word by exact Hw.
    destruct w as [|c w]; [discriminate |].
    cbn [replace title_from]. change (is_cased "-") with false.
    rewrite <- IH. reflexivity.
Qed.

End StringFacts.

(** ** The label of a property *)

Lemma label_of_spec label_map prop :
  BrowserUtils.label_of label_map prop = spec_label label_map prop.
Proof.
  destruct label_map as [d|]; [| reflexivity].
  unfold BrowserUtils.label_of, spec_label, dict_truthy, dict_contains, dict_get.
  destruct (d !! prop) as [l|] eqn:Hl.
  - rewrite bool_decide_eq_false_2, bool_decide_eq_true_2; eauto.
    intros ->. now rewrite lookup_empty in Hl.
  - rewrite (bool_decide_eq_false_2 (is_Some None)), andb_false_r; [reflexivity |].
    now intros [? ?].
Qed.

Lemma label_of_empty_map prop :
  BrowserUtils.label_of (Some ∅) prop = BrowserUtils.label_of None prop.
Proof. reflexivity. Qed.

(** ** The loop of [print_css_properties] *)

Section Loop.

Variable element : val.
Variable label_map : option (gmap string string).

(** One turn of the loop: the retrieval is recorded; a value or a caught
    exception prints an entry, any other exception ends the turn. *)
Lemma print_css_property_eq prop w :
  BrowserUtils.print_css_property element label_map prop w =
  let w1 v := mkWorld (heap w) (browser w)
                      (calls w ++ retrieval_calls element [prop])
                      (stdout w ++ [(BrowserUtils.label_of label_map prop, v)])
  in
  match snd (value_of_css_property element prop w) with
  | Ok v => (w1 v, Ok tt)
  | Raise x =>
      if isinstance_Exception x then (w1 VNone, Ok tt)
      else (mkWorld (heap w) (browser w)
                    (calls w ++ retrieval_calls element [prop]) (stdout w),
            Raise x)
  end.
Proof.
  unfold BrowserUtils.print_css_property, bind,
    try_except_Exception, value_of_css_property.
  destruct element; cbn; rewrite ?app_nil_r;
    try reflexivity.
  destruct (browser w (calls w) _) as [v|x]; cbn; [reflexivity |].
  destruct (isinstance_Exception x); reflexivity.
Qed.

Lemma retrieval_calls_nil : retrieval_calls element [] = [].
Proof. now destruct element. Qed.

Lemma retrieval_calls_cons prop ps :
  retrieval_calls element (prop :: ps)
  = retrieval_calls element [prop] ++ retrieval_calls element ps.
Proof. now destruct element. Qed.

Lemma retrieval_head w prop ps :
  retrieval w element (prop :: ps) 0
  = Some (snd (value_of_css_property element prop w)).
Proof.
  unfold retrieval. cbn [lookup list_lookup take].
  rewrite retrieval_calls_nil, app_nil_r. now destruct element.
Qed.

Lemma retrieval_tail w w1 prop ps i :
  browser w1 = browser w ->
  calls w1 = calls w ++ retrieval_calls element [prop] ->
  retrieval w element (prop :: ps) (S i) = retrieval w1 element ps i.
Proof.
  intros Hb Hc. unfold retrieval. cbn [lookup list_lookup take].
  destruct (ps !! i) as [p|]; [| reflexivity].
  rewrite (retrieval_calls_cons prop (take i ps)), app_assoc, <- Hc.
  destruct element; cbn; now rewrite ?Hb.
Qed.

(** What holds of every run, complete or not. *)
Lemma for_in_print_inv ps w w' r :
  for_in ps (BrowserUtils.print_css_property element label_map) w = (w', r) ->
  heap w' = heap w /\ browser w' = browser w /\
  exists es,
    stdout w' = stdout w ++ es /\
    es.*1 = BrowserUtils.label_of label_map <$> take (length es) ps /\
    (r = Ok tt -> length es = length ps) /\
    (forall x, r = Raise x -> isinstance_Exception x = false).
Proof.
  revert w. induction ps as [|prop ps IH]; intros w Hrun.
  - injection Hrun as <- <-. split; [reflexivity | split; [reflexivity |]].
    exists []. rewrite app_nil_r. repeat split; congruence.
  - cbn [for_in] in Hrun. unfold bind at 1 in Hrun.
    rewrite print_css_property_eq in Hrun. cbn zeta in Hrun.
    destruct (snd (value_of_css_property element prop w)) as [v|x].
    + apply IH in Hrun as (Hh & Hb & es & Hs & Hl & Hok & Hx). cbn in Hh, Hb, Hs.
      split; [assumption | split; [assumption |]].
      exists ((BrowserUtils.label_of label_map prop, v) :: es).
      rewrite Hs, <- app_assoc.
      repeat split; cbn; try congruence; auto.
    + destruct (isinstance_Exception x) eqn:Hi.
      * apply IH in Hrun as (Hh & Hb & es & Hs & Hl & Hok & Hx). cbn in Hh, Hb, Hs.
        split; [assumption | split; [assumption |]].
        exists ((BrowserUtils.label_of label_map prop, VNone) :: es).
        rewrite Hs, <- app_assoc.
        repeat split; cbn; try congruence; auto.
      * injection Hrun as <- <-. split; [reflexivity | split; [reflexivity |]].
        exists []. cbn. rewrite app_nil_r. repeat split; congruence.
Qed.

Lemma only_Exceptions_tail w w1 prop ps :
  browser w1 = browser w ->
  calls w1 = calls w ++ retrieval_calls element [prop] ->
  only_Exceptions w element (prop :: ps) ->
  only_Exceptions w1 element ps.
Proof.
  intros Hb Hc Hall i x Hi. apply (Hall (S i)).
  now rewrite (retrieval_tail w w1).
Qed.

Lemma entries_cons w w1 prop ps :
  browser w1 = browser w ->
  calls w1 = calls w ++ retrieval_calls element [prop] ->
  entries w element label_map (prop :: ps)
  = (BrowserUtils.label_of label_map prop,
     printed_value (Some (snd (value_of_css_property element prop w))))
      :: entries w1 element label_map ps.
Proof.
  intros Hb Hc. unfold entries. rewrite imap_cons, retrieval_head. f_equal.
  apply imap_ext. intros i p _. cbn. now rewrite (retrieval_tail w w1).
Qed.

(** A run in which only [Exception]s are raised is complete. *)
Lemma for_in_print_complete ps w :
  only_Exceptions w element ps ->
  for_in ps (BrowserUtils.print_css_property element label_map) w
  = (mkWorld (heap w) (browser w)
             (calls w ++ retrieval_calls element ps)
             (stdout w ++ entries w element label_map ps),
     Ok tt).
Proof.
  revert w. induction ps as [|prop ps IH]; intros w Hall.
  - cbn. rewrite retrieval_calls_nil, !app_nil_r. now destruct w.
  - assert (H0 := Hall 0). rewrite retrieval_head in H0.
    cbn [for_in]. unfold bind at 1.
    rewrite print_css_property_eq. cbn zeta.
    set (w1 v := mkWorld (heap w) (browser w)
                   (calls w ++ retrieval_calls element [prop])
                   (stdout w ++ [(BrowserUtils.label_of label_map prop, v)])).
    assert (Hw1 : forall v,
      for_in ps (BrowserUtils.print_css_property element label_map) (w1 v)
      = (mkWorld (heap w) (browser w)
           (calls w ++ retrieval_calls element (prop :: ps))
           (stdout w ++ (BrowserUtils.label_of label_map prop, v)
                          :: entries (w1 v) element label_map ps),
         Ok tt)).
    { intros v. rewrite IH
        by (apply (only_Exceptions_tail w _ prop); [reflexivity .. | exact Hall]).
      cbn. now rewrite (retrieval_calls_cons prop ps), <- !app_assoc. }
    destruct (snd (value_of_css_property element prop w)) as [v|x] eqn:Hv.
    + rewrite Hw1, (entries_cons w (w1 v)), Hv; reflexivity.
    + rewrite (H0 x eq_refl), Hw1, (entries_cons w (w1 VNone)), Hv; reflexivity.
Qed.

Lemma entries_length w ps : length (entries w element label_map ps) = length ps.
Proof. apply length_imap. Qed.

Lemma entries_lookup w ps i prop :
  ps !! i = Some prop ->
  entries w element label_map ps !! i
  = Some (BrowserUtils.label_of label_map prop, printed_value (retrieval w element ps i)).
Proof. intros Hi. unfold entries. now rewrite list_lookup_imap, Hi. Qed.

Lemma retrieval_take w ps n i :
  i < n -> retrieval w element (take n ps) i = retrieval w element ps i.
Proof.
  intros Hlt. unfold retrieval.
  rewrite lookup_take_lt by exact Hlt.
  now rewrite take_take, Nat.min_l by lia.
Qed.

Lemma retrieval_lt w ps i r : retrieval w element ps i = Some r -> i < length ps.
Proof.
  unfold retrieval. destruct (ps !! i) eqn:Hi; [| discriminate].
  intros _. now apply lookup_lt_Some in Hi.
Qed.

(** the loop that has come to the [i]-th property with only [Exception]s
    raised gets past it when it raises an [Exception] too *)
Lemma only_Exceptions_next w ps i x :
  only_Exceptions w element (take i ps) ->
  retrieval w element ps i = Some (Raise x) ->
  isinstance_Exception x = true ->
  only_Exceptions w element (take (S i) ps).
Proof.
  intros Hbefore Hx Hi j y Hj.
  assert (j < S i) as Hlt.
  { apply retrieval_lt in Hj. rewrite length_take in Hj. lia. }
  rewrite retrieval_take in Hj by exact Hlt.
  destruct (decide (j = i)) as [->|Hne].
  - congruence.
  - apply (Hbefore j). rewrite retrieval_take by lia. exact Hj.
Qed.

Lemma for_in_app {A} (xs ys : list A) (f : A -> M unit) w :
  for_in (xs ++ ys) f w
  = match for_in xs f w with
    | (w', Ok _) => for_in ys f w'
    | (w', Raise x) => (w', Raise x)
    end.
Proof.
  revert w. induction xs as [|x xs IH]; intros w; [reflexivity |].
  cbn. unfold bind. destruct (f x w) as [w' [[]|e]]; [apply IH | reflexivity].
Qed.

(** A run whose first [n] retrievals raise only [Exception]s prints their
    entries and goes on with the properties after them. *)
Lemma for_in_print_prefix ps n w :
  only_Exceptions w element (take n ps) ->
  for_in ps (BrowserUtils.print_css_property element label_map) w
  = for_in (drop n ps) (BrowserUtils.print_css_property element label_map)
      (mkWorld (heap w) (browser w)
               (calls w ++ retrieval_calls element (take n ps))
               (stdout w ++ entries w element label_map (take n ps))).
Proof.
  intros Hall. rewrite <- (take_drop n ps) at 1.
  now rewrite for_in_app, (for_in_print_complete _ w Hall).
Qed.

End Loop.

(** ** [print_css_properties] *)

Lemma for_in_ext {A} (f g : A -> M unit) xs w :
  (forall x w, f x w = g x w) -> for_in xs f w = for_in xs g w.
Proof.
  intros Hfg. revert w. induction xs as [|x xs IH]; intros w; [reflexivity |].
  cbn. unfold bind. rewrite Hfg. destruct (g x w) as [w' [[]|e]]; auto.
Qed.

Lemma print_css_properties_eq self element properties label_map w :
  BrowserUtils.print_css_properties self element properties label_map w
  = match for_in (properties_used properties)
            (BrowserUtils.print_css_property element label_map) w with
    | (w', Ok _) => (w', Ok VNone)
    | (w', Raise x) => (w', Raise x)
    end.
Proof. now destruct properties. Qed.

(** An [Exception] raised by a retrieval never leaves [print_css_properties]. *)
Lemma print_css_properties_raises self element properties label_map w x :
  snd (BrowserUtils.print_css_properties self element properties label_map w) = Raise x ->
  isinstance_Exception x = false.
Proof.
  rewrite print_css_properties_eq.
  destruct (for_in _ _ w) as [w' [[]|e]] eqn:Hrun; cbn; [discriminate |].
  intros [= ->].
  apply for_in_print_inv in Hrun as (_ & _ & es & _ & _ & _ & Hx). now apply Hx.
Qed.

(** [print_css_properties] touches neither the object store nor the session. *)
Lemma print_css_properties_heap self element properties label_map w :
  heap (fst (BrowserUtils.print_css_properties self element properties label_map w))
  = heap w.
Proof.
  rewrite print_css_properties_eq.
  destruct (for_in _ _ w) as [w' [[]|e]] eqn:Hrun; cbn;
    now apply for_in_print_inv in Hrun as (? & _).
Qed.

Lemma print_css_properties_complete self element properties label_map w :
  only_Exceptions w element (properties_used properties) ->
  BrowserUtils.print_css_properties self element properties label_map w
  = (mkWorld (heap w) (browser w)
       (calls w ++ retrieval_calls element (properties_used properties))
       (stdout w ++ entries w element label_map (properties_used properties)),
     Ok VNone).
Proof.
  intros Hall. rewrite print_css_properties_eq.
  now rewrite (for_in_print_complete element label_map _ w Hall).
Qed.

(** Whatever [print_css_properties] prints is entries for a start of the
    property list, each with the label of its property. *)
Lemma print_css_properties_labels self element properties label_map w :
  exists es,
    stdout (fst (BrowserUtils.print_css_properties self element properties label_map w))
    = stdout w ++ es /\
    es.*1 = spec_label label_map <$> take (length es) (properties_used properties).
Proof.
  rewrite print_css_properties_eq.
  destruct (for_in _ _ w) as [w' r] eqn:Hrun.
  apply for_in_print_inv in Hrun as (_ & _ & es & Hs & Hl & _).
  exists es. split.
  - now destruct r as [[]|e].
  - rewrite Hl. apply list_fmap_ext. intros i p _. apply label_of_spec.
Qed.

(** the text on standard output for the default properties of the stub *)
Example stub_lines :
  print_line <$> stdout (fst (BrowserUtils.print_css_properties
                                (VRef 0) (VElement 5) None None (fst Stub.opened)))
  = [ "Background Color None" ++ newline;
      "Color rgba(0, 0, 0, 1)" ++ newline;
      "Font Size 16px" ++ newline ]%string.
Proof. reflexivity. Qed.

Example label_mapped :
  spec_label (Some {["color" := "Text Color"]}) "color" = VStr "Text Color".
Proof. reflexivity. Qed.

Example label_not_mapped :
  spec_label (Some {["color" := "Text Color"]}) "font-size" = VStr "Font Size".
Proof. reflexivity. Qed.

Example label_no_map : spec_label None "background-color" = VStr "Background Color".
Proof. reflexivity. Qed.

(** C2, as stated, fails: a retrieval interrupted by [KeyboardInterrupt],
    which is not an [Exception], is not caught.  On the stub session the
    retrieval of [outline] raises it; the call then raises it too and prints
    nothing, and [color] is never asked for. *)
Lemma print_css_properties_interrupt_propagates :
  let w := fst Stub.opened in
  let ps := ["outline"; "color"] in
  retrieval w (VElement 5) ps 0 = Some (Raise Stub.interrupted) /\
  BrowserUtils.print_css_properties (VRef 0) (VElement 5) (Some ps) None w
  = (mkWorld (heap w) (browser w) [ValueOfCssProperty 5 "outline"] [],
     Raise Stub.interrupted) /\
  ~ swallows_failures w (VRef 0) (VElement 5) (Some ps) None.
Proof.
  split; [reflexivity | split; [reflexivity |]].
  intros [Hret _]. discriminate Hret.
Qed.

Lemma only_Exceptions_swallowed self element properties label_map w :
  only_Exceptions w element (properties_used properties) ->
  swallows_failures w self element properties label_map.
Proof.
  intros Hall. unfold swallows_failures. cbn zeta.
  rewrite print_css_properties_complete by exact Hall. cbn.
  split; [reflexivity |]. split.
  - now rewrite length_app, entries_length.
  - intros i prop x Hi Hx.
    rewrite lookup_app_r by lia.
    replace (length (stdout w) + i - length (stdout w)) with i by lia.
    rewrite (entries_lookup _ _ _ _ _ prop Hi), Hx.
    now rewrite label_of_spec.
Qed.

(** C2, amended. When the loop comes to a property, no earlier retrieval
    having raised anything but an [Exception], and the retrieval of the
    property raises an instance of [Exception], the entry of the property is
    printed with the value [None] and the run goes on with the properties
    after it.  When every exception the retrievals raise is an instance of
    [Exception], the call returns [None] and every property gets its entry. *)
Theorem print_css_properties_swallows_Exceptions
    self element properties label_map w i prop x
    (Hprop : properties_used properties !! i = Some prop)
    (Hbefore : only_Exceptions w element (take i (properties_used properties)))
    (Hraise : retrieval w element (properties_used properties) i = Some (Raise x))
    (Hexc : isinstance_Exception x = true) :
  let ps := properties_used properties in
  let res := BrowserUtils.print_css_properties self element properties label_map w in
  res = (for_in (drop (S i) ps) (BrowserUtils.print_css_property element label_map) ;;;
         ret VNone)
          (mkWorld (heap w) (browser w)
                   (calls w ++ retrieval_calls element (take (S i) ps))
                   (stdout w ++ entries w element label_map (take (S i) ps))) /\
  stdout (fst res) !! (length (stdout w) + i) = Some (spec_label label_map prop, VNone) /\
  (only_Exceptions w element ps ->
   swallows_failures w self element properties label_map).
Proof.
  cbn zeta.
  assert (Hnext := only_Exceptions_next element w _ i x Hbefore Hraise Hexc).
  assert (Hrun := for_in_print_prefix element label_map _ (S i) w Hnext).
  rewrite print_css_properties_eq, Hrun. clear Hrun. unfold bind at 1.
  split; [| split].
  - now destruct (for_in _ _ _) as [w' [[]|e]].
  - destruct (for_in _ _ _) as [w' r] eqn:Hrest.
    apply for_in_print_inv in Hrest as (_ & _ & es & Hs & _). cbn in Hs.
    assert (i < length (properties_used properties)) as Hlt
      by now apply lookup_lt_Some in Hprop.
    assert (stdout w' !! (length (stdout w) + i)
            = Some (spec_label label_map prop, VNone)) as Hentry.
    { rewrite Hs, <- app_assoc, lookup_app_r by lia.
      replace (length (stdout w) + i - length (stdout w)) with i by lia.
      rewrite lookup_app_l by (rewrite entries_length, length_take; lia).
      rewrite (entries_lookup _ _ _ _ _ prop)
        by (rewrite lookup_take_lt by lia; exact Hprop).
      rewrite retrieval_take by lia. rewrite Hraise. cbn.
      now rewrite label_of_spec. }
    now destruct r as [[]|e].
  - apply only_Exceptions_swallowed.
Qed.

Lemma print_css_properties_swallows_Exceptions_witness :
  let w := fst Stub.opened in
  let res := BrowserUtils.print_css_properties (VRef 0) (VElement 5) None
               (Some {["color" := "Text Color"]}) w in
  retrieval w (VElement 5) (properties_used None) 0 = Some (Raise Stub.no_such_element) /\
  stdout (fst res) !! 0 = Some (VStr "Background Color", VNone) /\
  stdout (fst res) !! 1 = Some (VStr "Text Color", VStr "rgba(0, 0, 0, 1)").
Proof.
  cbn zeta.
  assert (Hbefore : only_Exceptions (fst Stub.opened) (VElement 5)
                      (take 0 (properties_used None))).
  { intros i y. vm_compute. destruct i; discriminate. }
  destruct (print_css_properties_swallows_Exceptions
              (VRef 0) (VElement 5) None (Some {["color" := "Text Color"]})
              (fst Stub.opened) 0 "background-color" Stub.no_such_element
              eq_refl Hbefore eq_refl eq_refl) as (Hrun & Hentry & _).
  split; [reflexivity |]. split; [exact Hentry |].
  cbn zeta in Hrun. rewrite Hrun. reflexivity.
Defined.

(** C3, as stated, fails for the same reason as C2: the run over three
    properties that is interrupted at the second prints one entry and
    raises. *)
Lemma print_css_properties_interrupted_output :
  let w := fst Stub.opened in
  let ps := ["color"; "outline"; "font-size"] in
  let res := BrowserUtils.print_css_properties (VRef 0) (VElement 5) (Some ps) None w in
  stdout (fst res) = [(VStr "Color", VStr "rgba(0, 0, 0, 1)")] /\
  snd res = Raise Stub.interrupted /\
  ~ one_entry_per_property w (VRef 0) (VElement 5) (Some ps) None.
Proof.
  split; [reflexivity | split; [reflexivity |]].
  intros [Hret _]. discriminate Hret.
Qed.

(** C3, amended. When no retrieval raises an exception other than an
    instance of [Exception], the output grows by exactly one entry per
    property of the list, in the order of the list, and the call returns
    [None]. *)
Theorem print_css_properties_one_entry_per_property
    self element properties label_map w
    (Hall : only_Exceptions w element (properties_used properties)) :
  one_entry_per_property w self element properties label_map /\
  stdout (fst (BrowserUtils.print_css_properties self element properties label_map w))
  = stdout w ++ entries w element label_map (properties_used properties).
Proof.
  unfold one_entry_per_property. cbn zeta.
  rewrite print_css_properties_complete by exact Hall. cbn.
  split; [| reflexivity]. split; [reflexivity |].
  exists (entries w element label_map (properties_used properties)).
  split; [reflexivity |]. split; [apply entries_length |].
  unfold entries. rewrite fmap_imap.
  apply list_eq. intros i.
  rewrite list_lookup_imap, list_lookup_fmap.
  destruct (_ !! i); cbn; [| reflexivity]. now rewrite label_of_spec.
Qed.

Lemma print_css_properties_one_entry_per_property_witness :
  let w := fst Stub.opened in
  let ps := ["font-size"; "background-color"; "font-size"] in
  only_Exceptions w (VElement 5) ps /\
  one_entry_per_property w (VRef 0) (VElement 5) (Some ps) None /\
  stdout (fst (BrowserUtils.print_css_properties (VRef 0) (VElement 5) (Some ps) None w))
  = [(VStr "Font Size", VStr "16px");
     (VStr "Background Color", VNone);
     (VStr "Font Size", VStr "16px")].
Proof.
  cbn zeta.
  assert (H : only_Exceptions (fst Stub.opened) (VElement 5)
                ["font-size"; "background-color"; "font-size"]).
  { intros [|[|[|i]]] x; vm_compute; intros [= <-]; reflexivity. }
  split; [exact H |].
  destruct (print_css_properties_one_entry_per_property
              (VRef 0) (VElement 5)
              (Some ["font-size"; "background-color"; "font-size"]) None
              (fst Stub.opened) H) as [H1 H2].
  split; [exact H1 |]. rewrite H2. reflexivity.
Defined.

(** C9. A property list that is supplied is the one iterated over, also when
    it is empty: the empty list prints nothing, asks the element nothing and
    returns [None]. *)
Theorem print_css_properties_empty_list self element label_map w :
  (forall ps,
     BrowserUtils.print_css_properties self element (Some ps) label_map w
     = (for_in ps (BrowserUtils.print_css_property element label_map) ;;; ret VNone) w) /\
  BrowserUtils.print_css_properties self element (Some []) label_map w = (w, Ok VNone).
Proof. split; reflexivity. Qed.

(** C10. An empty label map and no label map give the same run: the same
    output, the same calls, the same outcome. *)
Theorem print_css_properties_empty_map self element properties w :
  BrowserUtils.print_css_properties self element properties (Some ∅) w
  = BrowserUtils.print_css_properties self element properties None w.
Proof.
  rewrite !print_css_properties_eq.
  now rewrite (for_in_ext (BrowserUtils.print_css_property element (Some ∅))
                          (BrowserUtils.print_css_property element None)).
Qed.

(** ** Objects that a computation leaves alone *)

Section Stable.

Context {A B : Type}.

Lemma stable_ret (a : A) : stable (ret a).
Proof. intros w r o H. exact H. Qed.

Lemma stable_raise (e : exc) : stable (@raise A e).
Proof. intros w r o H. exact H. Qed.

Lemma stable_bind (m : M A) (k : A -> M B) :
  stable m -> (forall a, stable (k a)) -> stable (bind m k).
Proof.
  intros Hm Hk w r o H. unfold bind.
  specialize (Hm w r o H). destruct (m w) as [w' [a|e]]; cbn in *.
  - now apply Hk.
  - exact Hm.
Qed.

End Stable.

Lemma stable_getattr target name : stable (getattr target name).
Proof.
  intros w r o H. unfold getattr.
  destruct target as [| | | | |r']; try exact H.
  destruct (heap w !! r') as [o'|] eqn:Hr'; [| exact H].
  destruct (obj_attrs o' !! name); exact H.
Qed.

Lemma stable_call c : stable (call c).
Proof. intros w r o H. exact H. Qed.

Lemma stable_print label value : stable (print label value).
Proof. intros w r o H. exact H. Qed.

Lemma stable_find_element target args :
  stable args -> stable (find_element target args).
Proof.
  intros Hargs. destruct target; try apply stable_raise.
  apply stable_bind; [exact Hargs |].
  intros []; first [apply stable_raise | apply stable_call].
Qed.

Lemma stable_send_keys target keys : stable (send_keys target keys).
Proof. destruct target; first [apply stable_raise | apply stable_call]. Qed.

Lemma stable_click target : stable (click target).
Proof. destruct target; first [apply stable_raise | apply stable_call]. Qed.

Lemma stable_title_property target : stable (title_property target).
Proof. destruct target; first [apply stable_raise | apply stable_call]. Qed.

(** a new shop page is a new object: those there before are not touched *)
Lemma stable_ShopPage_new driver : stable (ShopPage.new driver).
Proof.
  intros w r o H.
  unfold ShopPage.new, ShopPage.__init__, BrowserUtils.__init__,
    bind, new_object, setattr, ret. cbn.
  rewrite lookup_insert_eq. cbn.
  assert (r <> fresh (dom (heap w))) as Hne.
  { intros ->. apply (is_fresh (dom (heap w))). apply elem_of_dom. eauto. }
  now rewrite !lookup_insert_ne by congruence.
Qed.

Lemma stable_login self username password :
  stable (LoginPage.login self username password).
Proof.
  unfold LoginPage.login.
  repeat first
    [ apply stable_ShopPage_new
    | apply stable_getattr
    | apply stable_find_element
    | apply stable_send_keys
    | apply stable_click
    | apply stable_ret
    | apply stable_bind; [| intros ?] ].
Qed.

Lemma stable_getPageTitle self : stable (BrowserUtils.getPageTitle self).
Proof.
  unfold BrowserUtils.getPageTitle.
  apply stable_bind; [apply stable_getattr | intros ?; apply stable_title_property].
Qed.

(** ** [LoginPage] *)

Lemma not_elem_of_dom_fresh (w : World) : heap w !! fresh (dom (heap w)) = None.
Proof. apply not_elem_of_dom, is_fresh. Qed.

(** [LoginPage(driver)] makes a new object, bound to [driver], with the
    three locators; it calls nothing and prints nothing. *)
Lemma LoginPage_new_spec driver w0 :
  exists w self,
    LoginPage.new driver w0 = (w, Ok (VRef self)) /\
    heap w0 !! self = None /\
    is_login_page w self driver /\
    keeps_objects w0 w /\
    browser w = browser w0 /\ calls w = calls w0 /\ stdout w = stdout w0.
Proof.
  unfold LoginPage.new, LoginPage.__init__, BrowserUtils.__init__,
    bind, new_object, setattr, ret. cbn.
  repeat (rewrite lookup_insert_eq; cbn).
  do 2 eexists. split; [reflexivity |].
  split; [apply not_elem_of_dom_fresh |].
  split; [| split; [| repeat split]].
  - eexists. cbn. rewrite lookup_insert_eq. repeat split.
  - intros r o H. cbn.
    assert (r <> fresh (dom (heap w0))) as Hne.
    { intros ->. rewrite not_elem_of_dom_fresh in H. discriminate. }
    now rewrite !lookup_insert_ne by congruence.
Qed.

(** run [login] as far as the known attributes and answers reach *)
Ltac run_login :=
  repeat progress
    (unfold LoginPage.login, bind, getattr, find_element, send_keys, click,
       call, raise, ret;
     cbn;
     repeat match goal with
       | H : _ = _ |- _ => progress (rewrite H; cbn)
       end).

(** C5. On a login page, when the session answers every call, [login] finds
    the username field and sends it the username, finds the password field
    and sends it the password, finds the submit control and clicks it, in
    this order and with no other call, and returns a shop page that is a new
    object, bound to the driver of the login page. *)
Theorem login_sends_credentials_and_returns_shop_page
    w self d username password e1 e2 e3 r1 r2 r3
    (Hpage : is_login_page w self (VDriver d))
    (Hanswers : answered (browser w) (calls w)
                  (login_script d username password e1 e2 e3 r1 r2 r3)) :
  let shop := fresh (dom (heap w)) in
  LoginPage.login (VRef self) username password w
  = (mkWorld (<[shop := mkObj "ShopPage" {["driver" := VDriver d]}]> (heap w))
             (browser w)
             (calls w ++ [ FindElement d By_ID "username"; SendKeys e1 username;
                           FindElement d By_ID "password"; SendKeys e2 password;
                           FindElement d By_ID "signInBtn"; Click e3 ])
             (stdout w),
     Ok (VRef shop)) /\
  heap w !! shop = None /\ shop <> self.
Proof.
  destruct Hpage as (o & Ho & _ & Hd & Hu & Hp & Hs).
  destruct Hanswers as (A1 & A2 & A3 & A4 & A5 & A6 & _).
  cbn zeta. split; [| split].
  - run_login.
    unfold ShopPage.new, ShopPage.__init__, BrowserUtils.__init__,
      bind, new_object, setattr, ret. cbn.
    rewrite lookup_insert_eq. cbn. rewrite insert_insert_eq.
    rewrite <- !app_assoc. reflexivity.
  - apply not_elem_of_dom_fresh.
  - intros Heq. rewrite <- Heq, not_elem_of_dom_fresh in Ho. discriminate.
Qed.

Lemma fold_left_snoc {A} (cs h : list A) :
  fold_left (fun h c => h ++ [c]) cs h = h ++ cs.
Proof.
  revert h. induction cs as [|c cs IH]; intros h; cbn.
  - now rewrite app_nil_r.
  - now rewrite IH, <- app_assoc.
Qed.

(** C6. [login] handles no error: when the session raises at one of its
    calls, the ones before having been answered, [login] stops at that call
    and raises the same exception; the object store is as it was, so no shop
    page has been made. *)
Theorem login_propagates_driver_exceptions
    w self d username password e1 e2 e3 r1 r2 r3 k c v x
    (Hpage : is_login_page w self (VDriver d))
    (Hk : login_script d username password e1 e2 e3 r1 r2 r3 !! k = Some (c, v))
    (Hbefore : answered (browser w) (calls w)
                 (take k (login_script d username password e1 e2 e3 r1 r2 r3)))
    (Hraise : browser w
                (calls w ++ (take k (login_script d username password
                                       e1 e2 e3 r1 r2 r3)).*1) c
              = Raise x) :
  LoginPage.login (VRef self) username password w
  = (mkWorld (heap w) (browser w)
             (calls w ++ (take k (login_script d username password
                                    e1 e2 e3 r1 r2 r3)).*1 ++ [c])
             (stdout w),
     Raise x).
Proof.
  destruct Hpage as (o & Ho & _ & Hd & Hu & Hp & Hs).
  rewrite <- fold_left_snoc in Hraise.
  destruct k as [|[|[|[|[|[|k]]]]]]; cbn in Hk; try discriminate Hk;
    injection Hk as <- <-; cbn in Hbefore, Hraise;
    repeat match goal with H : _ /\ _ |- _ => destruct H end;
    run_login; rewrite <- ?app_assoc; reflexivity.
Qed.

(** C7. A login page is made with the locators (By.ID, username),
    (By.ID, password) and (By.ID, signInBtn) and with the driver it is given;
    [login], [getPageTitle] and [print_css_properties] leave the page object,
    hence its locators and its driver, exactly as it was. *)
Theorem login_page_fields_fixed
    w0 driver w self d username password element properties label_map
    (Hpage : is_login_page w self d) :
  (exists w1 page,
     LoginPage.new driver w0 = (w1, Ok (VRef page)) /\
     is_login_page w1 page driver) /\
  heap (fst (LoginPage.login (VRef self) username password w)) !! self
  = heap w !! self /\
  heap (fst (LoginPage.getPageTitle (VRef self) w)) !! self = heap w !! self /\
  heap (fst (LoginPage.print_css_properties (VRef self) element properties
               label_map w)) !! self
  = heap w !! self.
Proof.
  destruct Hpage as (o & Ho & _).
  split; [| split; [| split]].
  - destruct (LoginPage_new_spec driver w0) as (w1 & page & Hnew & _ & Hp & _).
    now exists w1, page.
  - rewrite Ho. now apply stable_login.
  - rewrite Ho. now apply stable_getPageTitle.
  - unfold LoginPage.print_css_properties.
    now rewrite print_css_properties_heap.
Qed.

(** C8. [getPageTitle] asks the driver of the page for its title and
    returns the answer as it is. *)
Theorem getPageTitle_returns_driver_title w self o d
    (Hself : heap w !! self = Some o)
    (Hdriver : obj_attrs o !! "driver" = Some (VDriver d)) :
  BrowserUtils.getPageTitle (VRef self) w
  = (mkWorld (heap w) (browser w) (calls w ++ [Title d]) (stdout w),
     browser w (calls w) (Title d)).
Proof.
  unfold BrowserUtils.getPageTitle, bind, getattr.
  rewrite Hself, Hdriver. reflexivity.
Qed.

(** ** The theorems at work on the stub session *)

Lemma login_sends_credentials_and_returns_shop_page_witness :
  let w := fst Stub.opened in
  is_login_page w 0 (VDriver 7) /\
  answered (browser w) (calls w)
    (login_script 7 (VStr "alice") (VStr "secret") 1 2 3 VNone VNone VNone) /\
  LoginPage.login (VRef 0) (VStr "alice") (VStr "secret") w
  = (mkWorld (<[1 := mkObj "ShopPage" {["driver" := VDriver 7]}]> (heap w))
             (browser w)
             [ FindElement 7 "id" "username"; SendKeys 1 (VStr "alice");
               FindElement 7 "id" "password"; SendKeys 2 (VStr "secret");
               FindElement 7 "id" "signInBtn"; Click 3 ]
             [],
     Ok (VRef 1)).
Proof.
  cbn zeta.
  assert (Hpage : is_login_page (fst Stub.opened) 0 (VDriver 7)).
  { eexists. split; [reflexivity |]. repeat split; reflexivity. }
  assert (Hanswers : answered (browser (fst Stub.opened)) (calls (fst Stub.opened))
            (login_script 7 (VStr "alice") (VStr "secret") 1 2 3 VNone VNone VNone)).
  { repeat split; reflexivity. }
  split; [exact Hpage |]. split; [exact Hanswers |].
  exact (proj1 (login_sends_credentials_and_returns_shop_page
                  (fst Stub.opened) 0 7 (VStr "alice") (VStr "secret")
                  1 2 3 VNone VNone VNone Hpage Hanswers)).
Defined.

Lemma login_propagates_driver_exceptions_witness :
  let w := fst Stub.stale_opened in
  let script := login_script 7 (VStr "alice") (VStr "secret") 1 2 3 VNone VNone VNone in
  is_login_page w 0 (VDriver 7) /\
  script !! 5 = Some (Click 3, VNone) /\
  answered (browser w) (calls w) (take 5 script) /\
  browser w (calls w ++ (take 5 script).*1) (Click 3) = Raise Stub.stale_element /\
  LoginPage.login (VRef 0) (VStr "alice") (VStr "secret") w
  = (mkWorld (heap w) (browser w)
             [ FindElement 7 "id" "username"; SendKeys 1 (VStr "alice");
               FindElement 7 "id" "password"; SendKeys 2 (VStr "secret");
               FindElement 7 "id" "signInBtn"; Click 3 ]
             [],
     Raise Stub.stale_element).
Proof.
  cbn zeta.
  set (w := fst Stub.stale_opened).
  set (script := login_script 7 (VStr "alice") (VStr "secret") 1 2 3 VNone VNone VNone).
  assert (Hpage : is_login_page w 0 (VDriver 7)).
  { eexists. split; [reflexivity |]. repeat split; reflexivity. }
  assert (Hk : script !! 5 = Some (Click 3, VNone)) by reflexivity.
  assert (Hbefore : answered (browser w) (calls w) (take 5 script)).
  { repeat split; reflexivity. }
  assert (Hraise : browser w (calls w ++ (take 5 script).*1) (Click 3)
                   = Raise Stub.stale_element) by reflexivity.
  repeat (split; [assumption |]).
  exact (login_propagates_driver_exceptions
           w 0 7 (VStr "alice") (VStr "secret") 1 2 3 VNone VNone VNone
           5 (Click 3) VNone Stub.stale_element Hpage Hk Hbefore Hraise).
Defined.

Lemma login_page_fields_fixed_witness :
  let w := fst Stub.opened in
  is_login_page w 0 (VDriver 7) /\
  (exists w1 page,
     LoginPage.new Stub.driver Stub.world = (w1, Ok (VRef page)) /\
     is_login_page w1 page Stub.driver) /\
  heap (fst (LoginPage.login (VRef 0) (VStr "alice") (VStr "secret") w)) !! 0
  = heap w !! 0 /\
  heap (fst (LoginPage.getPageTitle (VRef 0) w)) !! 0 = heap w !! 0 /\
  heap (fst (LoginPage.print_css_properties (VRef 0) (VElement 5) None None w)) !! 0
  = heap w !! 0.
Proof.
  cbn zeta.
  assert (Hpage : is_login_page (fst Stub.opened) 0 (VDriver 7)).
  { eexists. split; [reflexivity |]. repeat split; reflexivity. }
  split; [exact Hpage |].
  exact (login_page_fields_fixed
           Stub.world Stub.driver (fst Stub.opened) 0 (VDriver 7)
           (VStr "alice") (VStr "secret") (VElement 5) None None Hpage).
Defined.

Lemma getPageTitle_returns_driver_title_witness :
  let w := fst Stub.opened in
  exists o,
    heap w !! 0 = Some o /\
    obj_attrs o !! "driver" = Some (VDriver 7) /\
    BrowserUtils.getPageTitle (VRef 0) w
    = (mkWorld (heap w) (browser w) [Title 7] [], Ok (VStr "ProtoCommerce")).
Proof.
  cbn zeta. eexists.
  split; [reflexivity |]. split; [reflexivity |].
  exact (getPageTitle_returns_driver_title (fst Stub.opened) 0 _ 7
           eq_refl eq_refl).
Defined.

(** ** More on [print_css_properties] *)

Lemma spec_label_lookup label_map prop :
  spec_label label_map prop
  = match label_lookup label_map prop with
    | Some l => VStr l
    | None => VStr (derived_label prop)
    end.
Proof. now destruct label_map. Qed.

Lemma for_in_ext_elem {A} (f g : A -> M unit) xs w :
  (forall x, x ∈ xs -> forall w, f x w = g x w) -> for_in xs f w = for_in xs g w.
Proof.
  revert w. induction xs as [|x xs IH]; intros w Hfg; [reflexivity |].
  cbn. unfold bind. rewrite (Hfg x) by apply list_elem_of_here.
  destruct (g x w) as [w' [[]|e]]; [| reflexivity].
  apply IH. intros y Hy. apply Hfg. now apply list_elem_of_further.
Qed.

(** X1. An element argument that is not a web element (None, say) makes
    every retrieval fail with an AttributeError, which is caught: every
    property is printed with the value [None], nothing is asked of the
    browser, and the call returns [None]. *)
Theorem print_css_properties_not_an_element
    self element properties label_map w
    (Helement : forall e, element <> VElement e) :
  BrowserUtils.print_css_properties self element properties label_map w
  = (mkWorld (heap w) (browser w) (calls w)
       (stdout w ++ ((fun prop => (spec_label label_map prop, VNone))
                       <$> properties_used properties)),
     Ok VNone).
Proof.
  assert (Hraise : forall prop w',
    snd (value_of_css_property element prop w')
    = Raise (attribute_error "value_of_css_property")).
  { intros prop w'. destruct element; try reflexivity. now destruct (Helement e). }
  assert (Hcalls : forall ps, retrieval_calls element ps = []).
  { intros ps. destruct element; try reflexivity. now destruct (Helement e). }
  rewrite print_css_properties_complete.
  - rewrite Hcalls, app_nil_r. do 3 f_equal.
    unfold entries. apply list_eq. intros i.
    rewrite list_lookup_imap, list_lookup_fmap.
    destruct (_ !! i) as [prop|] eqn:Hi; cbn; [| reflexivity].
    unfold retrieval. rewrite Hi, Hraise. cbn. now rewrite label_of_spec.
  - intros i x. unfold retrieval.
    destruct (_ !! i); [| discriminate].
    rewrite Hraise. now intros [= <-].
Qed.

Lemma print_css_properties_not_an_element_witness :
  (forall e, VNone <> VElement e) /\
  BrowserUtils.print_css_properties (VRef 0) VNone (Some ["color"; "font-size"])
    (Some {["color" := "Text Color"]}) (fst Stub.opened)
  = (mkWorld (heap (fst Stub.opened)) Stub.session []
       [(VStr "Text Color", VNone); (VStr "Font Size", VNone)],
     Ok VNone).
Proof.
  assert (H : forall e, VNone <> VElement e) by (intros e; discriminate).
  split; [exact H |].
  exact (print_css_properties_not_an_element
           (VRef 0) VNone (Some ["color"; "font-size"])
           (Some {["color" := "Text Color"]}) (fst Stub.opened) H).
Defined.

Lemma for_in_print_calls element label_map ps w w' r :
  for_in ps (BrowserUtils.print_css_property element label_map) w = (w', r) ->
  exists n,
    calls w' = calls w ++ retrieval_calls element (take n ps) /\
    match r with
    | Ok _ => n = length ps
    | Raise _ => 0 < n <= length ps
    end.
Proof.
  revert w. induction ps as [|prop ps IH]; intros w Hrun.
  - injection Hrun as <- <-. exists 0. cbn.
    now rewrite retrieval_calls_nil, app_nil_r.
  - cbn [for_in] in Hrun. unfold bind at 1 in Hrun.
    rewrite print_css_property_eq in Hrun. cbn zeta in Hrun.
    assert (Hnext : forall w1 : World,
      calls w1 = calls w ++ retrieval_calls element [prop] ->
      for_in ps (BrowserUtils.print_css_property element label_map) w1 = (w', r) ->
      exists n,
        calls w' = calls w ++ retrieval_calls element (take n (prop :: ps)) /\
        match r with
        | Ok _ => n = length (prop :: ps)
        | Raise _ => 0 < n <= length (prop :: ps)
        end).
    { intros w1 Hc Hrest. apply IH in Hrest as (n & Hn & Hr).
      exists (S n). cbn [take length].
      rewrite (retrieval_calls_cons element prop (take n ps)), app_assoc, <- Hc.
      split; [exact Hn |]. destruct r; lia. }
    destruct (snd (value_of_css_property element prop w)) as [v|x].
    + eapply Hnext; [| exact Hrun]; reflexivity.
    + destruct (isinstance_Exception x).
      * eapply Hnext; [| exact Hrun]; reflexivity.
      * injection Hrun as <- <-. exists 1. cbn [take length calls].
        split; [reflexivity | lia].
Qed.

(** X2. All that [print_css_properties] asks of the browser is the value
    of the properties of its list, one call each, in the order of the list
    and from its start; when it returns, all of them have been asked, and
    when it raises, the last one asked is where it stopped.  The object
    store is never touched. *)
Theorem print_css_properties_calls self element properties label_map w :
  let res := BrowserUtils.print_css_properties self element properties label_map w in
  let ps := properties_used properties in
  heap (fst res) = heap w /\
  exists n,
    calls (fst res) = calls w ++ retrieval_calls element (take n ps) /\
    match snd res with
    | Ok _ => n = length ps
    | Raise _ => 0 < n <= length ps
    end.
Proof.
  cbn zeta. split; [apply print_css_properties_heap |].
  rewrite print_css_properties_eq.
  destruct (for_in _ _ w) as [w' r] eqn:Hrun.
  apply for_in_print_calls in Hrun as (n & Hn & Hr).
  exists n. now destruct r as [[]|e].
Qed.

(** X3. A label map matters only through the labels it gives the
    properties of the list: two maps that agree on these (an entry for
    another property, or no map at all against a map without any of them)
    give the same run. *)
Theorem print_css_properties_unused_labels
    self element properties label_map1 label_map2 w
    (Hagree : forall prop, prop ∈ properties_used properties ->
              label_lookup label_map1 prop = label_lookup label_map2 prop) :
  BrowserUtils.print_css_properties self element properties label_map1 w
  = BrowserUtils.print_css_properties self element properties label_map2 w.
Proof.
  rewrite !print_css_properties_eq.
  rewrite (for_in_ext_elem (BrowserUtils.print_css_property element label_map1)
                           (BrowserUtils.print_css_property element label_map2));
    [reflexivity |].
  intros prop Hprop w'. unfold BrowserUtils.print_css_property.
  now rewrite !label_of_spec, !spec_label_lookup, (Hagree prop Hprop).
Qed.

Lemma print_css_properties_unused_labels_witness :
  let m1 : option (gmap string string) := Some {["outline" := "Frame"]} in
  let m2 : option (gmap string string) := None in
  (forall prop, prop ∈ properties_used None ->
   label_lookup m1 prop = label_lookup m2 prop) /\
  BrowserUtils.print_css_properties (VRef 0) (VElement 5) None m1 (fst Stub.opened)
  = BrowserUtils.print_css_properties (VRef 0) (VElement 5) None m2 (fst Stub.opened).
Proof.
  cbn zeta.
  assert (H : forall prop, prop ∈ properties_used None ->
              label_lookup (Some {["outline" := "Frame"]}) prop
              = label_lookup None prop).
  { intros prop Hprop.
    repeat (apply elem_of_cons in Hprop as [->|Hprop]; [reflexivity |]).
    now apply elem_of_nil in Hprop. }
  split; [exact H |].
  exact (print_css_properties_unused_labels
           (VRef 0) (VElement 5) None (Some {["outline" := "Frame"]}) None
           (fst Stub.opened) H).
Defined.

(** X4. Printing a list in two calls, its start and then its rest, is the
    same as printing it in one call: same calls, same output, same outcome,
    the second call not being made when the first raises. *)
Theorem print_css_properties_app self element ps qs label_map w :
  BrowserUtils.print_css_properties self element (Some (ps ++ qs)) label_map w
  = (BrowserUtils.print_css_properties self element (Some ps) label_map ;;;
     BrowserUtils.print_css_properties self element (Some qs) label_map) w.
Proof.
  unfold bind at 1. rewrite !print_css_properties_eq.
  change (properties_used (Some (ps ++ qs))) with (ps ++ qs).
  change (properties_used (Some ps)) with ps.
  rewrite for_in_app.
  destruct (for_in ps _ w) as [w' [[]|e]]; [| reflexivity].
  now rewrite print_css_properties_eq.
Qed.

(** ** More on the derived label *)

Section Characters.

Import Str.

Ltac by_cases c := destruct c as [[] [] [] [] [] [] [] []]; reflexivity.

Lemma is_cased_to_lower c : is_cased (to_lower c) = is_cased c.
Proof. by_cases c. Qed.

Lemma is_cased_to_upper c : is_cased (to_upper c) = is_cased c.
Proof. by_cases c. Qed.

Lemma to_lower_to_lower c : to_lower (to_lower c) = to_lower c.
Proof. by_cases c. Qed.

Lemma to_lower_to_upper c : to_lower (to_upper c) = to_lower c.
Proof. by_cases c. Qed.

Lemma to_upper_to_lower c : to_upper (to_lower c) = to_upper c.
Proof. by_cases c. Qed.

Lemma to_upper_to_upper c : to_upper (to_upper c) = to_upper c.
Proof. by_cases c. Qed.

Lemma hyphen_to_space_to_lower c :
  hyphen_to_space (to_lower c) = to_lower (hyphen_to_space c).
Proof. by_cases c. Qed.

Lemma hyphen_to_space_title_char b c :
  hyphen_to_space (title_char b c) = title_char b (hyphen_to_space c).
Proof. destruct b; by_cases c. Qed.

Lemma hyphen_to_space_twice c :
  hyphen_to_space (hyphen_to_space c) = hyphen_to_space c.
Proof. by_cases c. Qed.

Lemma is_cased_hyphen_to_space c : is_cased (hyphen_to_space c) = is_cased c.
Proof. by_cases c. Qed.

Lemma title_char_twice b c : title_char b (title_char b c) = title_char b c.
Proof. destruct b; by_cases c. Qed.

Lemma is_cased_title_char b c : is_cased (title_char b c) = is_cased c.
Proof. destruct b; by_cases c. Qed.

Lemma title_char_to_lower b c : title_char b (to_lower c) = title_char b c.
Proof. destruct b; by_cases c. Qed.

Lemma to_lower_title_char b c : to_lower (title_char b c) = to_lower c.
Proof. destruct b; by_cases c. Qed.

Lemma lower_String c s : lower (String c s) = String (to_lower c) (lower s).
Proof. reflexivity. Qed.

Lemma replace_String c s :
  replace "-" " " (String c s) = String (hyphen_to_space c) (replace "-" " " s).
Proof. reflexivity. Qed.

Lemma title_from_String b c s :
  title_from b (String c s) = String (title_char b c) (title_from (is_cased c) s).
Proof. reflexivity. Qed.

Lemma lower_title_from b s : lower (title_from b s) = lower s.
Proof.
  revert b. induction s as [|c s IH]; intros b; [reflexivity |].
  now rewrite title_from_String, !lower_String, IH, to_lower_title_char.
Qed.

Lemma lower_replace s : lower (replace "-" " " s) = replace "-" " " (lower s).
Proof.
  induction s as [|c s IH]; [reflexivity |].
  now rewrite replace_String, !lower_String, replace_String, IH,
    hyphen_to_space_to_lower.
Qed.

Lemma title_from_lower b s : title_from b (lower s) = title_from b s.
Proof.
  revert b. induction s as [|c s IH]; intros b; [reflexivity |].
  now rewrite lower_String, !title_from_String, IH, is_cased_to_lower,
    title_char_to_lower.
Qed.

Lemma replace_title_from b s :
  replace "-" " " (title_from b s) = title_from b (replace "-" " " s).
Proof.
  revert b. induction s as [|c s IH]; intros b; [reflexivity |].
  now rewrite title_from_String, !replace_String, title_from_String, IH,
    is_cased_hyphen_to_space, hyphen_to_space_title_char.
Qed.

Lemma replace_twice s :
  replace "-" " " (replace "-" " " s) = replace "-" " " s.
Proof.
  induction s as [|c s IH]; [reflexivity |].
  now rewrite !replace_String, IH, hyphen_to_space_twice.
Qed.

Lemma title_from_twice b s : title_from b (title_from b s) = title_from b s.
Proof.
  revert b. induction s as [|c s IH]; intros b; [reflexivity |].
  now rewrite !title_from_String, is_cased_title_char, IH, title_char_twice.
Qed.

Lemma length_replace s : String.length (replace "-" " " s) = String.length s.
Proof. induction s as [|c s IH]; cbn; congruence. Qed.

Lemma length_title_from b s : String.length (title_from b s) = String.length s.
Proof. revert b. induction s as [|c s IH]; intros b; cbn; congruence. Qed.

End Characters.

(** X5. For an ASCII property name, the derived label spells the name: it
    has the length of the name and, letter case apart, it is the name with a
    space for every hyphen.  No character is dropped, added or reordered. *)
Theorem derived_label_spells_name prop (Hascii : is_ascii prop = true) :
  String.length (derived_label prop) = String.length prop /\
  lower (derived_label prop) = Str.replace "-" " " (lower prop).
Proof.
  unfold derived_label, Str.title. split.
  - now rewrite length_title_from, length_replace.
  - now rewrite lower_title_from, lower_replace.
Qed.

Lemma derived_label_spells_name_witness :
  is_ascii "border-top-width" = true /\
  String.length (derived_label "border-top-width") = 16 /\
  lower (derived_label "border-top-width") = "border top width".
Proof.
  split; [reflexivity |].
  exact (derived_label_spells_name "border-top-width" eq_refl).
Defined.

(** X6. The derived label does not depend on the letter case of the
    property name: two ASCII names that are equal once lowercased get the
    same label. *)
Theorem derived_label_ignores_case prop1 prop2
    (Hascii1 : is_ascii prop1 = true) (Hascii2 : is_ascii prop2 = true)
    (Hsame : lower prop1 = lower prop2) :
  derived_label prop1 = derived_label prop2.
Proof.
  assert (Hlower : forall p, derived_label p = derived_label (lower p)).
  { intros p. unfold derived_label, Str.title.
    now rewrite <- lower_replace, title_from_lower. }
  now rewrite (Hlower prop1), (Hlower prop2), Hsame.
Qed.

Lemma derived_label_ignores_case_witness :
  lower "FONT-size" = lower "font-Size" /\
  derived_label "FONT-size" = derived_label "font-Size".
Proof.
  split; [reflexivity |].
  exact (derived_label_ignores_case "FONT-size" "font-Size"
           eq_refl eq_refl eq_refl).
Defined.

(** X7. Deriving a label is idempotent on ASCII names: the label of a
    derived label is that label, so a label passed where a property name is
    expected is printed unchanged. *)
Theorem derived_label_idempotent prop (Hascii : is_ascii prop = true) :
  derived_label (derived_label prop) = derived_label prop.
Proof.
  unfold derived_label, Str.title.
  now rewrite replace_title_from, replace_twice, title_from_twice.
Qed.

Lemma derived_label_idempotent_witness :
  is_ascii "background-color" = true /\
  derived_label (derived_label "background-color") = "Background Color".
Proof.
  split; [reflexivity |].
  exact (derived_label_idempotent "background-color" eq_refl).
Defined.

(** ** More on [LoginPage] *)

(** X8. Whatever the session answers, a login on a login page makes the
    six calls of a login in their order and stops at the first that goes
    wrong: what it has asked is a start of find username, send username, find
    password, send password, find submit, click.  So the password is not
    sent before the username has been, nor the form submitted before both.
    Nothing is printed; all six calls have been made when it returns. *)
Theorem login_calls_in_order w self d username password
    (Hpage : is_login_page w self (VDriver d)) :
  let res := LoginPage.login (VRef self) username password w in
  stdout (fst res) = stdout w /\
  exists e1 e2 e3 n,
    calls (fst res) = calls w ++ take n (login_calls d username password e1 e2 e3) /\
    match snd res with
    | Ok _ => n = 6
    | Raise _ => 1 <= n <= 6
    end.
Proof.
  destruct Hpage as (o & Ho & _ & Hd & Hu & Hp & Hs). cbn zeta.
  run_login.
  repeat
    (match goal with
     | |- context [browser w ?h ?c] =>
         let v := fresh "v" in
         destruct (browser w h c) as [v|?] eqn:?;
         [ try match goal with
               | |- context [match v with _ => _ end] => destruct v
               end
         | ]
     end;
     run_login).
  all: unfold ShopPage.new, ShopPage.__init__, BrowserUtils.__init__,
         bind, new_object, setattr, ret; cbn;
       rewrite ?lookup_insert_eq; cbn;
       (split; [reflexivity |]);
       rewrite <- ?app_assoc; cbn [app];
       do 3 eexists;
       first [ exists 1; split; [reflexivity | lia]
             | exists 2; split; [reflexivity | lia]
             | exists 3; split; [reflexivity | lia]
             | exists 4; split; [reflexivity | lia]
             | exists 5; split; [reflexivity | lia]
             | exists 6; split; [reflexivity | lia] ].
  Unshelve. all: exact 0.
Qed.

Lemma login_answered w self d username password e1 e2 e3 r1 r2 r3 :
  is_login_page w self (VDriver d) ->
  answered (browser w) (calls w)
    (login_script d username password e1 e2 e3 r1 r2 r3) ->
  LoginPage.login (VRef self) username password w
  = (mkWorld (<[fresh (dom (heap w)) := mkObj "ShopPage" {["driver" := VDriver d]}]>
                (heap w))
             (browser w)
             (calls w ++ login_calls d username password e1 e2 e3)
             (stdout w),
     Ok (VRef (fresh (dom (heap w))))).
Proof.
  intros (o & Ho & _ & Hd & Hu & Hp & Hs) (A1 & A2 & A3 & A4 & A5 & A6 & _).
  run_login.
  unfold ShopPage.new, ShopPage.__init__, BrowserUtils.__init__,
    bind, new_object, setattr, ret. cbn.
  rewrite lookup_insert_eq. cbn. rewrite insert_insert_eq.
  rewrite <- !app_assoc. reflexivity.
Qed.

(** X9. Nothing is kept from one login to the next: a second login on the
    same page looks the three elements up again, after the calls of the
    first, and returns a shop page of its own.  The two shop pages are
    different objects, both new and both bound to the driver of the login
    page, which is itself unchanged. *)
Theorem login_twice
    w self d username1 password1 username2 password2
    e1 e2 e3 r1 r2 r3 f1 f2 f3 s1 s2 s3
    (Hpage : is_login_page w self (VDriver d))
    (Hfirst : answered (browser w) (calls w)
                (login_script d username1 password1 e1 e2 e3 r1 r2 r3))
    (Hsecond : answered (browser w)
                 (calls w ++ login_calls d username1 password1 e1 e2 e3)
                 (login_script d username2 password2 f1 f2 f3 s1 s2 s3)) :
  exists w2 shop1 shop2,
    (a <- LoginPage.login (VRef self) username1 password1 ;;
     b <- LoginPage.login (VRef self) username2 password2 ;;
     ret (a, b)) w
    = (w2, Ok (VRef shop1, VRef shop2)) /\
    shop1 <> shop2 /\
    heap w !! shop1 = None /\ heap w !! shop2 = None /\
    heap w2 !! shop1 = Some (mkObj "ShopPage" {["driver" := VDriver d]}) /\
    heap w2 !! shop2 = Some (mkObj "ShopPage" {["driver" := VDriver d]}) /\
    heap w2 !! self = heap w !! self /\
    calls w2 = calls w ++ login_calls d username1 password1 e1 e2 e3
                       ++ login_calls d username2 password2 f1 f2 f3 /\
    stdout w2 = stdout w.
Proof.
  set (shop1 := fresh (dom (heap w))).
  set (o1 := mkObj "ShopPage" {["driver" := VDriver d]}).
  set (w1 := mkWorld (<[shop1 := o1]> (heap w)) (browser w)
               (calls w ++ login_calls d username1 password1 e1 e2 e3) (stdout w)).
  set (shop2 := fresh (dom (heap w1))).
  assert (Hpage1 : is_login_page w1 self (VDriver d)).
  { destruct Hpage as (o & Ho & H). exists o. split; [| exact H]. cbn.
    rewrite lookup_insert_ne; [exact Ho |].
    intros Heq. rewrite <- Heq in Ho. unfold shop1 in Ho.
    rewrite not_elem_of_dom_fresh in Ho. discriminate. }
  assert (Hne : shop1 <> shop2).
  { intros Heq. assert (H := not_elem_of_dom_fresh w1).
    fold shop2 in H. rewrite <- Heq in H. cbn in H.
    rewrite lookup_insert_eq in H. discriminate. }
  assert (Hnew2 : heap w !! shop2 = None).
  { assert (H := not_elem_of_dom_fresh w1). fold shop2 in H. cbn in H.
    rewrite lookup_insert_ne in H by exact Hne. exact H. }
  exists (mkWorld (<[shop2 := o1]> (heap w1)) (browser w)
            (calls w1 ++ login_calls d username2 password2 f1 f2 f3) (stdout w)),
    shop1, shop2.
  split; [| repeat split].
  - unfold bind.
    rewrite (login_answered w self d _ _ e1 e2 e3 r1 r2 r3 Hpage Hfirst).
    fold shop1 o1 w1.
    rewrite (login_answered w1 self d _ _ f1 f2 f3 s1 s2 s3 Hpage1 Hsecond).
    reflexivity.
  - exact Hne.
  - apply not_elem_of_dom_fresh.
  - exact Hnew2.
  - cbn. rewrite lookup_insert_ne by congruence. apply lookup_insert_eq.
  - cbn. apply lookup_insert_eq.
  - destruct Hpage as (o & Ho & _). destruct Hpage1 as (o' & Ho' & _).
    assert (H1 := not_elem_of_dom_fresh w). fold shop1 in H1.
    assert (H2 := not_elem_of_dom_fresh w1). fold shop2 in H2.
    cbn. rewrite !lookup_insert_ne; [reflexivity | congruence | congruence].
  - cbn. now rewrite <- app_assoc.
Qed.

Lemma login_calls_in_order_witness :
  let w := fst Stub.stale_opened in
  let res := LoginPage.login (VRef 0) (VStr "alice") (VStr "secret") w in
  is_login_page w 0 (VDriver 7) /\
  stdout (fst res) = stdout w /\
  exists e1 e2 e3 n,
    calls (fst res)
    = calls w ++ take n (login_calls 7 (VStr "alice") (VStr "secret") e1 e2 e3) /\
    match snd res with
    | Ok _ => n = 6
    | Raise _ => 1 <= n <= 6
    end.
Proof.
  cbn zeta.
  assert (Hpage : is_login_page (fst Stub.stale_opened) 0 (VDriver 7)).
  { eexists. split; [reflexivity |]. repeat split; reflexivity. }
  split; [exact Hpage |].
  exact (login_calls_in_order (fst Stub.stale_opened) 0 7
           (VStr "alice") (VStr "secret") Hpage).
Defined.

Lemma login_twice_witness :
  let w := fst Stub.opened in
  exists w2,
    (a <- LoginPage.login (VRef 0) (VStr "alice") (VStr "secret") ;;
     b <- LoginPage.login (VRef 0) (VStr "bob") (VStr "hunter2") ;;
     ret (a, b)) w
    = (w2, Ok (VRef 1, VRef 2)) /\
    length (calls w2) = 12.
Proof.
  cbn zeta.
  assert (Hpage : is_login_page (fst Stub.opened) 0 (VDriver 7)).
  { eexists. split; [reflexivity |]. repeat split; reflexivity. }
  assert (Hfirst : answered (browser (fst Stub.opened)) (calls (fst Stub.opened))
            (login_script 7 (VStr "alice") (VStr "secret") 1 2 3 VNone VNone VNone)).
  { repeat split; reflexivity. }
  assert (Hsecond : answered (browser (fst Stub.opened))
            (calls (fst Stub.opened)
             ++ login_calls 7 (VStr "alice") (VStr "secret") 1 2 3)
            (login_script 7 (VStr "bob") (VStr "hunter2") 1 2 3 VNone VNone VNone)).
  { repeat split; reflexivity. }
  destruct (login_twice (fst Stub.opened) 0 7
              (VStr "alice") (VStr "secret") (VStr "bob") (VStr "hunter2")
              1 2 3 VNone VNone VNone 1 2 3 VNone VNone VNone
              Hpage Hfirst Hsecond)
    as (w2 & shop1 & shop2 & Hrun & _ & _ & _ & _ & _ & _ & Hcalls & _).
  exists w2. split.
  - rewrite Hrun. vm_compute in Hrun. now injection Hrun as _ <- <-.
  - rewrite Hcalls. reflexivity.
Defined.

(** X10. Making a login page never fails and looks nothing up: whatever
    is passed as the driver, [LoginPage(driver)] returns a new object, makes
    no call to the browser (the elements are only looked up by [login]),
    prints nothing and leaves every object there was as it was. *)
Theorem LoginPage_new_looks_nothing_up driver w0 :
  exists w self,
    LoginPage.new driver w0 = (w, Ok (VRef self)) /\
    heap w0 !! self = None /\
    is_Some (heap w !! self) /\
    keeps_objects w0 w /\
    browser w = browser w0 /\ calls w = calls w0 /\ stdout w = stdout w0.
Proof.
  destruct (LoginPage_new_spec driver w0)
    as (w & self & Hnew & Hfresh & (o & Ho & _) & Hkeep & Hrest).
  exists w, self. rewrite Ho. eauto 10.
Qed.

(** X11. A login page made with no driver (None, or a tuple) fails at its
    first step: [login] raises an AttributeError before any call to the
    browser, and nothing has changed: no call, no output, no shop page. *)
Theorem login_without_driver w self driver username password
    (Hpage : is_login_page w self driver)
    (Hdriver : lacks_driver_methods driver = true) :
  exists x,
    LoginPage.login (VRef self) username password w = (w, Raise x) /\
    exc_type x = AttributeError.
Proof.
  destruct Hpage as (o & Ho & _ & Hd & Hu & Hp & Hs).
  destruct driver; try discriminate Hdriver;
    run_login; eexists; split; reflexivity.
Qed.

Lemma login_without_driver_witness :
  let w := fst Stub.unbound in
  is_login_page w 0 VNone /\
  exists x,
    LoginPage.login (VRef 0) (VStr "alice") (VStr "secret") w = (w, Raise x) /\
    exc_type x = AttributeError.
Proof.
  cbn zeta.
  assert (Hpage : is_login_page (fst Stub.unbound) 0 VNone).
  { eexists. split; [reflexivity |]. repeat split; reflexivity. }
  split; [exact Hpage |].
  exact (login_without_driver (fst Stub.unbound) 0 VNone
           (VStr "alice") (VStr "secret") Hpage eq_refl).
Defined.

(** X12. The title helper that [LoginPage] inherits works on a page as
    soon as it is made: [LoginPage(driver).getPageTitle()] asks that driver,
    once, for its title and returns the answer, value or exception; the only
    other change is the new page object. *)
Theorem LoginPage_new_getPageTitle d w0 :
  (page <- LoginPage.new (VDriver d) ;; LoginPage.getPageTitle page) w0
  = (mkWorld (heap (fst (LoginPage.new (VDriver d) w0))) (browser w0)
             (calls w0 ++ [Title d]) (stdout w0),
     browser w0 (calls w0) (Title d)).
Proof.
  unfold bind.
  destruct (LoginPage_new_spec (VDriver d) w0)
    as (w & self & Hnew & _ & (o & Ho & _ & Hd & _) & _ & Hb & Hc & Hs).
  rewrite Hnew. cbn [fst].
  unfold LoginPage.getPageTitle, BrowserUtils.getPageTitle, bind, getattr.
  rewrite Ho, Hd. cbn. unfold call. now rewrite Hb, Hc, Hs.
Qed.

(** X13. On an object whose [driver] attribute is missing, or is None or a
    tuple, [getPageTitle] raises an AttributeError without asking the
    browser anything; nothing has changed. *)
Theorem getPageTitle_without_driver w self o
    (Hself : heap w !! self = Some o)
    (Hdriver : driver_unusable o = true) :
  exists x,
    BrowserUtils.getPageTitle (VRef self) w = (w, Raise x) /\
    exc_type x = AttributeError.
Proof.
  unfold driver_unusable in Hdriver.
  unfold BrowserUtils.getPageTitle, bind, getattr. rewrite Hself.
  destruct (obj_attrs o !! "driver") as [v|].
  - destruct v; try discriminate Hdriver; eexists; split; reflexivity.
  - eexists; split; reflexivity.
Qed.

Lemma getPageTitle_without_driver_witness :
  let w := fst Stub.unbound in
  exists o x,
    heap w !! 0 = Some o /\
    driver_unusable o = true /\
    BrowserUtils.getPageTitle (VRef 0) w = (w, Raise x) /\
    exc_type x = AttributeError.
Proof.
  cbn zeta.
  destruct (getPageTitle_without_driver (fst Stub.unbound) 0 _ eq_refl eq_refl)
    as (x & Hrun & Hx).
  eexists _, x. split; [reflexivity |]. split; [reflexivity |].
  split; [exact Hrun | exact Hx].
Defined.

(** ** The derived label, word by word *)

Section Words.

Import Str.

Example words_label_font_size : words_label "font-size" = "Font Size".
Proof. reflexivity. Qed.

Example words_label_mixed :
  words_label "grid-row2x they're--x" = "Grid Row2X They'Re  X".
Proof. reflexivity. Qed.

Lemma starts_run_cons before c l i :
  starts_run before (c :: l) (S i) = starts_run (is_cased c) l i.
Proof. now destruct i. Qed.

(** the state kept by [title] is the position rule of [title_case] *)
Lemma title_from_positions before s :
  title_from before s
  = string_of_list_ascii
      (imap (fun i c => if starts_run before (list_ascii_of_string s) i
                        then to_upper c else to_lower c)
            (list_ascii_of_string s)).
Proof.
  revert before. induction s as [|c s IH]; intros before; [reflexivity |].
  cbn [title_from list_ascii_of_string]. rewrite imap_cons.
  cbn [string_of_list_ascii starts_run]. f_equal.
  - now destruct before.
  - rewrite IH. f_equal. apply imap_ext. intros i x _.
    unfold compose. now rewrite starts_run_cons.
Qed.

Lemma title_title_case w : title w = title_case w.
Proof. apply title_from_positions. Qed.

Lemma split_hyphens_cons s : exists w ws, split_hyphens s = w :: ws.
Proof.
  destruct s as [|c s]; cbn; [eauto |].
  destruct (Ascii.eqb c "-"); [eauto |].
  destruct (split_hyphens s); eauto.
Qed.

Lemma join_String sep c w ws :
  join sep (String c w :: ws) = String c (join sep (w :: ws)).
Proof. now destruct ws. Qed.

Lemma replace_split_hyphens s : replace "-" " " s = join " " (split_hyphens s).
Proof.
  induction s as [|c s IH]; [reflexivity |].
  cbn [replace split_hyphens]. rewrite IH.
  destruct (split_hyphens_cons s) as (w & ws & Hs). rewrite Hs.
  destruct (Ascii.eqb c "-"); [reflexivity |].
  now rewrite join_String.
Qed.

(** a space ends a word: what follows it starts anew *)
Lemma title_from_space before w rest :
  title_from before (w ++ String " " rest)
  = (title_from before w ++ String " " (title_from false rest))%string.
Proof.
  revert before. induction w as [|c w IH]; intros before.
  - now destruct before.
  - change (String c w ++ String " " rest)%string
      with (String c (w ++ String " " rest)).
    cbn [title_from]. now rewrite IH.
Qed.

Lemma title_join ws : title (join " " ws) = join " " (title <$> ws).
Proof.
  induction ws as [|w ws IH]; [reflexivity |].
  destruct ws as [|w' ws]; [reflexivity |].
  change (join " " (w :: w' :: ws))
    with (w ++ String " " (join " " (w' :: ws)))%string.
  change (join " " (title <$> w :: w' :: ws))
    with (title w ++ String " " (join " " (title <$> w' :: ws)))%string.
  unfold title in *. now rewrite title_from_space, IH.
Qed.

(** Line 23 derives the label the specification words: the name cut at its
    hyphens, each word in title case, the words joined by spaces. *)
Lemma derived_label_words prop : derived_label prop = words_label prop.
Proof.
  unfold derived_label, words_label.
  rewrite replace_split_hyphens, title_join. f_equal.
  apply list_fmap_ext. intros i w _. apply title_title_case.
Qed.

End Words.

Lemma label_of_claimed label_map prop :
  BrowserUtils.label_of label_map prop = claimed_label label_map prop.
Proof.
  rewrite label_of_spec. unfold spec_label, claimed_label.
  fold (derived_label prop). rewrite derived_label_words.
  reflexivity.
Qed.

(** the entry of a property that the loop gets past *)
Lemma print_css_properties_entry self element properties label_map w i prop :
  properties_used properties !! i = Some prop ->
  only_Exceptions w element (take (S i) (properties_used properties)) ->
  stdout (fst (BrowserUtils.print_css_properties self element properties label_map w))
    !! (length (stdout w) + i)
  = Some (BrowserUtils.label_of label_map prop,
          printed_value (retrieval w element (properties_used properties) i)).
Proof.
  intros Hprop Hreach.
  assert (i < length (properties_used properties)) as Hlt
    by now apply lookup_lt_Some in Hprop.
  rewrite print_css_properties_eq,
    (for_in_print_prefix element label_map _ (S i) w Hreach).
  destruct (for_in _ _ _) as [w' r] eqn:Hrest.
  apply for_in_print_inv in Hrest as (_ & _ & es & Hs & _). cbn in Hs.
  assert (stdout w' !! (length (stdout w) + i)
          = Some (BrowserUtils.label_of label_map prop,
                  printed_value (retrieval w element (properties_used properties) i)))
    as Hentry.
  { rewrite Hs, <- app_assoc, lookup_app_r by lia.
    replace (length (stdout w) + i - length (stdout w)) with i by lia.
    rewrite lookup_app_l by (rewrite entries_length, length_take; lia).
    rewrite (entries_lookup _ _ _ _ _ prop)
      by (rewrite lookup_take_lt by lia; exact Hprop).
    now rewrite retrieval_take by lia. }
  now destruct r as [[]|e].
Qed.

(** C1. Every property that [print_css_properties] processes, that is
    every property of the list that the loop comes to and gets past (no
    retrieval up to it raising anything but an [Exception]), gets its entry,
    at its place in the output, and the label of the entry is: the mapped
    label when a label map is given and has the property; otherwise the name
    of the property with every hyphen replaced by a space and each word in
    title case, for an ASCII name. *)
Theorem print_css_properties_label_of_processed_property
    self element properties label_map w i prop
    (Hprop : properties_used properties !! i = Some prop)
    (Hprocessed : only_Exceptions w element (take (S i) (properties_used properties)))
    (Hascii : label_lookup label_map prop = None -> is_ascii prop = true) :
  stdout (fst (BrowserUtils.print_css_properties self element properties label_map w))
    !! (length (stdout w) + i)
  = Some (claimed_label label_map prop,
          printed_value (retrieval w element (properties_used properties) i)).
Proof.
  rewrite (print_css_properties_entry _ _ _ _ _ _ prop Hprop Hprocessed).
  now rewrite label_of_claimed.
Qed.

Lemma print_css_properties_label_of_processed_property_witness :
  let w := fst Stub.opened in
  let m : option (gmap string string) := Some {["color" := "Text Color"]} in
  let out := stdout (fst (BrowserUtils.print_css_properties
                            (VRef 0) (VElement 5) None m w)) in
  only_Exceptions w (VElement 5) (take 3 (properties_used None)) /\
  out !! 1 = Some (VStr "Text Color", VStr "rgba(0, 0, 0, 1)") /\
  out !! 2 = Some (VStr "Font Size", VStr "16px").
Proof.
  cbn zeta.
  assert (H3 : only_Exceptions (fst Stub.opened) (VElement 5)
                 (take 3 (properties_used None))).
  { intros [|[|[|i]]] x; vm_compute; intros [= <-]; reflexivity. }
  assert (H2 : only_Exceptions (fst Stub.opened) (VElement 5)
                 (take 2 (properties_used None))).
  { intros [|[|i]] x; vm_compute; intros [= <-]; reflexivity. }
  split; [exact H3 |]. split.
  - exact (print_css_properties_label_of_processed_property
             (VRef 0) (VElement 5) None (Some {["color" := "Text Color"]})
             (fst Stub.opened) 1 "color" eq_refl H2
             (fun H => match H in _ = y return
                         match y with None => is_ascii "color" = true | Some _ => True end
                       with eq_refl => I end)).
  - exact (print_css_properties_label_of_processed_property
             (VRef 0) (VElement 5) None (Some {["color" := "Text Color"]})
             (fst Stub.opened) 2 "font-size" eq_refl H3 (fun _ => eq_refl)).
Defined.

(** C4. Called without a property list, [print_css_properties] runs its
    loop over background-color, color and font-size, in this order.  When
    none of the three retrievals raises anything but an [Exception], the
    calls it makes are the retrievals of these three properties and its
    output is their three entries; on a web element the calls are
    [value_of_css_property] of background-color, of color and of font-size. *)
Theorem print_css_properties_default_properties self element label_map w
    (Hall : only_Exceptions w element ["background-color"; "color"; "font-size"]) :
  let ps := ["background-color"; "color"; "font-size"] in
  let res := BrowserUtils.print_css_properties self element None label_map w in
  res = (for_in ps (BrowserUtils.print_css_property element label_map) ;;; ret VNone) w /\
  res = (mkWorld (heap w) (browser w)
           (calls w ++ retrieval_calls element ps)
           (stdout w ++ entries w element label_map ps),
         Ok VNone) /\
  (stdout (fst res)).*1
  = (stdout w).*1 ++ [ claimed_label label_map "background-color";
                       claimed_label label_map "color";
                       claimed_label label_map "font-size" ] /\
  forall e, element = VElement e ->
    calls (fst res)
    = calls w ++ [ ValueOfCssProperty e "background-color";
                   ValueOfCssProperty e "color";
                   ValueOfCssProperty e "font-size" ].
Proof.
  cbn zeta.
  assert (Hrun := print_css_properties_complete self element None label_map w Hall).
  change (properties_used None) with ["background-color"; "color"; "font-size"] in Hrun.
  split; [reflexivity |]. split; [exact Hrun |]. rewrite Hrun. split.
  - cbn [fst stdout]. rewrite fmap_app. f_equal.
    unfold entries. cbn. now rewrite !label_of_claimed.
  - now intros e ->.
Qed.

Lemma print_css_properties_default_properties_witness :
  let w := fst Stub.opened in
  let res := BrowserUtils.print_css_properties (VRef 0) (VElement 5) None None w in
  only_Exceptions w (VElement 5) ["background-color"; "color"; "font-size"] /\
  calls (fst res) = [ ValueOfCssProperty 5 "background-color";
                      ValueOfCssProperty 5 "color";
                      ValueOfCssProperty 5 "font-size" ] /\
  (stdout (fst res)).*1
  = [VStr "Background Color"; VStr "Color"; VStr "Font Size"].
Proof.
  cbn zeta.
  assert (H : only_Exceptions (fst Stub.opened) (VElement 5)
                ["background-color"; "color"; "font-size"]).
  { intros [|[|[|i]]] x; vm_compute; intros [= <-]; reflexivity. }
  destruct (print_css_properties_default_properties
              (VRef 0) (VElement 5) None (fst Stub.opened) H)
    as (_ & _ & Hlabels & Hcalls).
  split; [exact H |]. split.
  - exact (Hcalls 5 eq_refl).
  - exact Hlabels.
Defined.
